(** * scapper: a terminal frame scrubber

    A shallow embedding of [scapper.py].  The script probes a video, picks
    one of two navigation loops by the probed duration, reads raw keys and
    saves the frames the user marks.

    Conventions of the embedding:
    - Python [int] is [Z]; Python [float] is an exact rational [Q]
      (rounding of binary64 arithmetic is abstracted: sums, differences,
      products and quotients are exact, comparisons are the rational ones).
      Where a property depends on the digits of a computed float, the
      value the script computes is given beside the exact one, through the
      rounding [B64.round] of binary64 arithmetic, and the property is
      stated of that value;
    - [str] and [bytes] are [string]; what ffprobe prints is taken as
      already decoded text;
    - the file system is the working directory, a finite map from file
      names to contents, and the temporary directories, a finite map from
      directory names to the frames they hold;
    - the external programs (ffprobe, ffmpeg, viu) and the terminal are the
      environment of a run: how each child process ended and what it
      printed or wrote, and what each read of the terminal delivered.  A
      run whose keys are used up is waiting for the next key;
    - exceptions, [sys.exit] included, are results of their own, so that
      [try], [except] and [finally] are modelled as the script has them. *)

From Stdlib Require Import ZArith QArith Qabs Qminmax Qround Qpower.
From Stdlib Require Import Lia Lqa Ascii.
From stdpp Require Import gmap strings list pretty sorting.

Local Open Scope Z_scope.

(** ** Python built-ins used by the script *)

Module Py.

(** [max(a, b)]: the first argument unless the second is strictly greater. *)
Definition maxZ (a b : Z) : Z := if a <? b then b else a.
Definition minZ (a b : Z) : Z := if b <? a then b else a.

Definition Qltb (a b : Q) : bool :=
  match (a ?= b)%Q with Lt => true | _ => false end.

Definition Qleb (a b : Q) : bool :=
  match (a ?= b)%Q with Gt => false | _ => true end.

Definition maxQ (a b : Q) : Q := if Qltb a b then b else a.

(** [int(x)] on a float truncates toward zero. *)
Definition int (x : Q) : Z := Z.quot (Qnum x) (Z.pos (Qden x)).

(** [f"{x:.3f}"]: the value rounded to the nearest thousandth, ties to the
    even neighbour, printed with exactly three fractional digits; the sign
    is kept when a negative value rounds to zero. *)
Definition round_half_even (x : Q) : Z :=
  let n := Qnum x in
  let d := Z.pos (Qden x) in
  let f := n / d in
  match 2 * (n mod d) ?= d with
  | Lt => f
  | Gt => f + 1
  | Eq => if Z.even f then f else f + 1
  end.

Definition pad3 (n : Z) : string :=
  (if n <? 10 then "00" else if n <? 100 then "0" else "") +:+ pretty n.

Definition format_3f (x : Q) : string :=
  let m := round_half_even (Qabs x * 1000) in
  (if Qltb x 0 then "-" else "")
    +:+ pretty (m / 1000) +:+ "." +:+ pad3 (m mod 1000).

(** [str.strip()]: the characters [str.isspace] accepts below 256. *)
Definition isspace (c : Ascii.ascii) : bool :=
  let n := Ascii.N_of_ascii c in
  ((9 <=? n) && (n <=? 13) || (28 <=? n) && (n <=? 32)
   || (n =? 133) || (n =? 160))%N.

Fixpoint lstrip (s : string) : string :=
  match s with
  | String c s' => if isspace c then lstrip s' else s
  | EmptyString => EmptyString
  end.

Fixpoint rstrip (s : string) : string :=
  match s with
  | String c s' =>
      match rstrip s' with
      | EmptyString => if isspace c then EmptyString else String c EmptyString
      | r => String c r
      end
  | EmptyString => EmptyString
  end.

Definition strip (s : string) : string := rstrip (lstrip s).

(** [s.split(sep)] for a one-character separator: never an empty list. *)
Fixpoint split (sep : Ascii.ascii) (s : string) : list string :=
  match s with
  | EmptyString => [EmptyString]
  | String c s' =>
      if Ascii.eqb c sep then EmptyString :: split sep s'
      else match split sep s' with
           | p :: ps => String c p :: ps
           | [] => [String c EmptyString]
           end
  end.

(** [c in s] *)
Fixpoint contains (c : Ascii.ascii) (s : string) : bool :=
  match s with
  | EmptyString => false
  | String c' s' => Ascii.eqb c' c || contains c s'
  end.

End Py.

(** ** Binary64 arithmetic

    Python's [float] operations return the binary64 number nearest to the
    exact result, ties to the even significand.  [round] is that rounding
    for results of magnitude below [2^1024]; larger ones overflow and are
    not met in the properties below. *)

Module B64.

(** [floor (log2 x)], for a positive [x]. *)
Definition exponent (x : Q) : Z :=
  let e := Z.log2 (Qnum x) - Z.log2 (Z.pos (Qden x)) in
  if Py.Qltb x (2 ^ e) then e - 1 else e.

(** The spacing of the binary64 numbers around [x]: 52 binary places
    below the leading bit, and [2^-1074] in the subnormal range. *)
Definition ulp (x : Q) : Q :=
  (2 ^ (Z.max (exponent (Qabs x)) (-1022) - 52))%Q.

(** The binary64 number nearest to [x]: [x] counted in units in the last
    place, rounded to an integer, ties to the even one. *)
Definition round (x : Q) : Q :=
  if Qeq_bool x 0 then 0%Q
  else (inject_Z (Py.round_half_even (x / ulp x)) * ulp x)%Q.

(** Whether [x] is a binary64 number: an operation whose exact result
    is one returns it. *)
Definition exact (x : Q) : bool :=
  Qeq_bool (round x) x && Py.Qltb (Qabs x) (2 ^ 1024).

End B64.

(** ** Exceptions and subprocesses *)

Inductive exn :=
  | ValueError
  | ZeroDivisionError
  | IndexError
  | NameError
  | OSError
  | CalledProcessError
  | SystemExit (code : Z).

#[global] Instance exn_eq_dec : EqDecision exn.
Proof. solve_decision. Defined.

(** The result of running a piece of the script: it returns, it raises, or
    it is still waiting for a key that the terminal has not delivered. *)
Inductive result (A : Type) :=
  | Ret (a : A)
  | Raise (e : exn)
  | Block.
Arguments Ret {A} a.
Arguments Raise {A} e.
Arguments Block {A}.

(** What a child process did: it ran and exited with a status, having
    printed [out], or it could not be started at all. *)
Inductive process :=
  | Exited (status : Z) (out : string)
  | NotStarted.

(** [subprocess.run(cmd, check=...)]: a non-zero status raises only when
    the caller asks for the check. *)
Definition subprocess_run (check : bool) (p : process) : result (Z * string) :=
  match p with
  | NotStarted => Raise OSError
  | Exited st out =>
      if check && negb (st =? 0) then Raise CalledProcessError
      else Ret (st, out)
  end.

(** [subprocess.check_output(cmd)] is [run] with [check=True], returning
    what the child printed. *)
Definition check_output (p : process) : result string :=
  match subprocess_run true p with
  | Ret r => Ret (snd r)
  | Raise e => Raise e
  | Block => Block
  end.

(** ** The state the script works on *)

(** Lines written to standard output. *)
Inductive line :=
  | LUsage (prog : string)
  | LControls
  | LErrDuration
  | LErrFramerate
  | LErrFrame
  | LErrExtract
  | LErrDisplay
  | LExtracting
  | LCurrentFrame (shown total : Z)
  | LCurrentTime (t : Q)
  | LOutOfRange
  | LSaved (filename : string)
  | LSummary (n : nat)
  | LName (filename : string).

Definition nl : string := String "010"%char EmptyString.

Definition render (l : line) : string :=
  match l with
  | LUsage prog => "Usage: " +:+ prog +:+ " video.mp4"
  | LControls =>
      nl +:+ "Controls:" +:+ nl
      +:+ "→: Forward 0.25s  ←: Back 0.25s" +:+ nl
      +:+ ".: Forward 1 frame  ,: Back 1 frame" +:+ nl
      +:+ "s: Save current frame" +:+ nl
      +:+ "q: Quit and save all marked frames" +:+ nl
  | LErrDuration => "Error getting video duration"
  | LErrFramerate => "Error getting video framerate"
  | LErrFrame => "Error extracting frame"
  | LErrExtract => "Error extracting frames"
  | LErrDisplay => "Error displaying frame with viu"
  | LExtracting => "Extracting all frames..."
  | LCurrentFrame shown total =>
      nl +:+ "Current frame: " +:+ pretty shown +:+ "/" +:+ pretty total
  | LCurrentTime t =>
      nl +:+ "Current timestamp: " +:+ Py.format_3f t +:+ "s"
  | LOutOfRange => "Frame index out of range"
  | LSaved filename => "Saved " +:+ filename
  | LSummary n => nl +:+ "Saved " +:+ pretty n +:+ " frames:"
  | LName filename => filename
  end.

(** A frame handed to the renderer or to [save_frame]: the bytes of an
    image, or the path of an extracted file.  A temporary directory is fresh
    and only the bulk extraction writes into it, under the pattern
    [frame_%d.png]: a directory is the finite map from the number in the
    name to the image, and a path is the directory with that number. *)
Inductive frame_data :=
  | Bytes (image : string)
  | Path (dir : string) (n : Z).

Definition frame_path (dir : string) (n : Z) : string :=
  dir +:+ "/frame_" +:+ pretty n +:+ ".png".

Record state := mkState {
  current_frame : Z;
  current_time : Q;
  saved_frames : list string;
  temp_dir : option string;
  cwd : gmap string string;
  tmpdirs : gmap string (gmap Z string);
  stdout : list line
}.

Definition set_current_frame (i : Z) (s : state) : state :=
  mkState i (current_time s) (saved_frames s) (temp_dir s) (cwd s)
          (tmpdirs s) (stdout s).

Definition set_current_time (t : Q) (s : state) : state :=
  mkState (current_frame s) t (saved_frames s) (temp_dir s) (cwd s)
          (tmpdirs s) (stdout s).

Definition set_saved_frames (l : list string) (s : state) : state :=
  mkState (current_frame s) (current_time s) l (temp_dir s) (cwd s)
          (tmpdirs s) (stdout s).

Definition set_temp_dir (d : option string) (s : state) : state :=
  mkState (current_frame s) (current_time s) (saved_frames s) d (cwd s)
          (tmpdirs s) (stdout s).

Definition set_cwd (m : gmap string string) (s : state) : state :=
  mkState (current_frame s) (current_time s) (saved_frames s) (temp_dir s) m
          (tmpdirs s) (stdout s).

Definition set_tmpdirs (m : gmap string (gmap Z string)) (s : state) : state :=
  mkState (current_frame s) (current_time s) (saved_frames s) (temp_dir s)
          (cwd s) m (stdout s).

Definition set_stdout (o : list line) (s : state) : state :=
  mkState (current_frame s) (current_time s) (saved_frames s) (temp_dir s)
          (cwd s) (tmpdirs s) o.

(** The module-level assignments [current_frame = 0], [saved_frames = []]
    on a given file system. *)
Definition initial (files : gmap string string)
    (dirs : gmap string (gmap Z string)) : state :=
  mkState 0 0 [] None files dirs [].

(** ** State and exception monad *)

Definition M (A : Type) : Type := state -> result A * state.

#[global] Instance M_ret : MRet M := fun A a s => (Ret a, s).

#[global] Instance M_bind : MBind M := fun A B k m s =>
  match m s with
  | (Ret a, s') => k a s'
  | (Raise e, s') => (Raise e, s')
  | (Block, s') => (Block, s')
  end.

Definition raise {A} (e : exn) : M A := fun s => (Raise e, s).
Definition block {A} : M A := fun s => (Block, s).
Definition lift {A} (r : result A) : M A := fun s => (r, s).
Definition gets {A} (f : state -> A) : M A := fun s => (Ret (f s), s).
Definition modify (f : state -> state) : M unit := fun s => (Ret tt, f s).

Definition print (l : line) : M unit :=
  modify (fun s => set_stdout (stdout s ++ [l]) s).

Definition sys_exit {A} (code : Z) : M A := raise (SystemExit code).

(** [try: m except E: h] for one exception class. *)
Definition try_except {A} (m : M A) (E : exn) (h : M A) : M A := fun s =>
  match m s with
  | (Raise e, s') => if decide (e = E) then h s' else (Raise e, s')
  | r => r
  end.

(** [try: m except: h], the bare clause: it catches every exception,
    [SystemExit] included. *)
Definition try_except_all {A} (m : M A) (h : M A) : M A := fun s =>
  match m s with
  | (Raise _, s') => h s'
  | r => r
  end.

(** [try: m finally: f]: [f] runs however [m] ends; an exception of [f]
    replaces the outcome of [m].  A script still waiting for a key has not
    left the block. *)
Definition try_finally {A} (m : M A) (f : M unit) : M A := fun s =>
  match m s with
  | (Block, s') => (Block, s')
  | (r, s') =>
      match f s' with
      | (Ret _, s'') => (r, s'')
      | (Raise e, s'') => (Raise e, s'')
      | (Block, s'') => (Block, s'')
      end
  end.

(** ** The environment of one run *)

(** What the terminal delivers to one [getch()]: a character, or the read
    raises. *)
Inductive stimulus :=
  | Key (ch : ascii)
  | Fail (e : exn).

Record env := mkEnv {
  argv : list string;
  (** ffprobe asked for the duration, and for the frame rate *)
  ffprobe_duration : process;
  ffprobe_framerate : process;
  (** the bulk extraction: how ffmpeg ended, and the frames it wrote, each
      with the number of its file name *)
  ffmpeg_bulk : process;
  ffmpeg_written : list (Z * string);
  (** the single-frame extraction at a timestamp *)
  ffmpeg_seek : Q -> process;
  (** the renderer *)
  viu : frame_data -> process;
  (** what the terminal delivers, read after read *)
  keys : list stimulus
}.

Inductive break := ByQuit | ByOutOfRange.

Inductive strategy := Indexed | Seeked.

(** ** The script *)

Section Scapper.

(** Python's [float(str)]: [None] stands for [ValueError]. *)
Variable float_of_string : string -> option Q.

Definition float (x : string) : result Q :=
  match float_of_string x with
  | Some q => Ret q
  | None => Raise ValueError
  end.

(** [a / b] on floats. *)
Definition divide (a b : Q) : result Q :=
  if Qeq_bool b 0 then Raise ZeroDivisionError else Ret (a / b)%Q.

(** [num, den = map(float, parts)]: every way this fails (a part that is
    not a number, too few parts, too many) is a [ValueError]. *)
Definition unpack2 (parts : list string) : result (Q * Q) :=
  match parts with
  | [a; b] =>
      match float a, float b with
      | Ret num, Ret den => Ret (num, den)
      | _, _ => Raise ValueError
      end
  | _ => Raise ValueError
  end.

Definition get_duration (e : env) : M Q :=
  try_except_all
    (out ← lift (check_output (ffprobe_duration e));
     lift (float (Py.strip out)))
    (print LErrDuration;; sys_exit 1).

Definition get_framerate (e : env) : M Q :=
  try_except_all
    (out ← lift (check_output (ffprobe_framerate e));
     let framerate := Py.strip out in
     if decide (framerate = "") then mret 30%Q
     else
       try_except
         ('(num, den) ← lift (unpack2 (Py.split "/" framerate));
          lift (divide num den))
         ValueError
         (lift (float framerate)))
    (print LErrFramerate;; mret 30%Q).

Definition get_frame (e : env) (timestamp : Q) : M string :=
  try_except
    (lift (check_output (ffmpeg_seek e timestamp)))
    CalledProcessError
    (print LErrFrame;; sys_exit 1).

Definition mkdtemp : M string := fun s =>
  let d := fresh (dom (tmpdirs s)) in
  (Ret d, set_tmpdirs (<[d := ∅]> (tmpdirs s)) s).

(** The effect of the bulk extraction on the directory it is given. *)
Definition write_frames (dir : string) (frames : list (Z * string)) : M unit :=
  modify (fun s =>
    set_tmpdirs (alter (fun m => list_to_map frames ∪ m) dir (tmpdirs s)) s).

(** [os.listdir(dir)], as the numbers of the frame files. *)
Definition listdir (dir : string) : M (list Z) := fun s =>
  match tmpdirs s !! dir with
  | Some m => (Ret (map_to_list m).*1, s)
  | None => (Raise OSError, s)
  end.

(** The listing keeps the names that end in [.png] and sorts them by the
    number after [frame_]; on a directory of frames this is the sort of
    their numbers.  The extraction is run without a check of its status. *)
Definition extract_all_frames (e : env) : M (string * list Z) :=
  d ← mkdtemp;
  try_except
    (_ ← lift (subprocess_run false (ffmpeg_bulk e));
     write_frames d (ffmpeg_written e);;
     names ← listdir d;
     mret (d, merge_sort Z.le names))
    CalledProcessError
    (print LErrExtract;; sys_exit 1).

(** Bytes are piped to viu, a path is passed to it; neither call checks
    the status of the renderer. *)
Definition display_frame (e : env) (frame : frame_data) : M unit :=
  try_except
    (_ ← lift (subprocess_run false (viu e frame)); mret tt)
    CalledProcessError
    (print LErrDisplay;; sys_exit 1).

Definition frame_filename (timestamp : Q) : string :=
  "frame_" +:+ Py.format_3f timestamp +:+ ".png".

(** [open(filename, 'wb').write(data)] and [shutil.copy2(path, filename)]:
    both replace whatever the name held. *)
Definition write_file (filename data : string) : M unit :=
  modify (fun s => set_cwd (<[filename := data]> (cwd s)) s).

Definition read_frame_file (dir : string) (n : Z) : M string := fun s =>
  match tmpdirs s !! dir ≫= (.!! n) with
  | Some data => (Ret data, s)
  | None => (Raise OSError, s)
  end.

Definition save_frame (frame : frame_data) (timestamp : Q) : M unit :=
  let filename := frame_filename timestamp in
  match frame with
  | Bytes image => write_file filename image
  | Path dir n => data ← read_frame_file dir n; write_file filename data
  end;;
  modify (fun s => set_saved_frames (saved_frames s ++ [filename]) s);;
  print (LSaved filename).

(** [shutil.rmtree(dir)]. *)
Definition rmtree (dir : string) : M unit := fun s =>
  match tmpdirs s !! dir with
  | Some _ => (Ret tt, set_tmpdirs (delete dir (tmpdirs s)) s)
  | None => (Raise OSError, s)
  end.

(** *** Navigation, frame-indexed *)

Definition frames_to_move (framerate : Q) : Z :=
  Py.maxZ 1 (Py.int (framerate * (1 # 4))).

(** ['.'] *)
Definition indexed_forward (total_frames current : Z) : Z :=
  if current <? total_frames - 1 then current + 1 else current.

(** [','] *)
Definition indexed_back (current : Z) : Z := Py.maxZ 0 (current - 1).

(** Right arrow *)
Definition indexed_right (framerate : Q) (total_frames current : Z) : Z :=
  Py.minZ (total_frames - 1) (current + frames_to_move framerate).

(** Left arrow *)
Definition indexed_left (framerate : Q) (current : Z) : Z :=
  Py.maxZ 0 (current - frames_to_move framerate).

(** [current_frame / total_frames * duration], in exact arithmetic. *)
Definition indexed_timestamp (duration : Q) (total_frames current : Z) : Q :=
  (inject_Z current / inject_Z total_frames * duration)%Q.

(** The same expression as line 125 computes it: the quotient of the two
    integers is rounded to binary64, and so is its product with the
    duration. *)
Definition indexed_timestamp_b64 (duration : Q) (total_frames current : Z)
    : Q :=
  B64.round
    (B64.round (inject_Z current / inject_Z total_frames) * duration).

Definition esc : ascii := "027"%char.

(** In both loops each [getch()] takes the next stimulus; with none left
    the script is blocked in the read. *)

Fixpoint indexed_loop (e : env) (duration framerate : Q) (dir : string)
    (all_frames : list Z) (ins : list stimulus) : M break :=
  let total_frames := Z.of_nat (length all_frames) in
  current ← gets current_frame;
  if (0 <=? current) && (current <? total_frames) then
    match all_frames !! Z.to_nat current with
    | None => raise IndexError
    | Some n =>
      display_frame e (Path dir n);;
      print (LCurrentFrame (current + 1) total_frames);;
      match ins with
      | [] => block
      | Fail x :: _ => raise x
      | Key ch :: ins1 =>
        if Ascii.eqb ch "q" then mret ByQuit
        else if Ascii.eqb ch "s" then
          save_frame (Path dir n)
                     (indexed_timestamp duration total_frames current);;
          indexed_loop e duration framerate dir all_frames ins1
        else if Ascii.eqb ch "." then
          modify (set_current_frame (indexed_forward total_frames current));;
          indexed_loop e duration framerate dir all_frames ins1
        else if Ascii.eqb ch "," then
          modify (set_current_frame (indexed_back current));;
          indexed_loop e duration framerate dir all_frames ins1
        else if Ascii.eqb ch esc then
          match ins1 with
          | [] => block
          | Fail x :: _ => raise x
          | Key next1 :: [] => block
          | Key next1 :: Fail x :: _ => raise x
          | Key next1 :: Key next2 :: ins3 =>
            (if Ascii.eqb next1 "[" then
               if Ascii.eqb next2 "C" then
                 modify (set_current_frame
                           (indexed_right framerate total_frames current))
               else if Ascii.eqb next2 "D" then
                 modify (set_current_frame (indexed_left framerate current))
               else mret tt
             else mret tt);;
            indexed_loop e duration framerate dir all_frames ins3
          end
        else indexed_loop e duration framerate dir all_frames ins1
      end
    end
  else
    print LOutOfRange;; mret ByOutOfRange.

(** *** Navigation, by timestamp *)

(** ['.'] *)
Definition seeked_forward (frame_duration duration t : Q) : Q :=
  if Py.Qltb (t + frame_duration) duration then (t + frame_duration)%Q else t.

(** [','] *)
Definition seeked_back (frame_duration t : Q) : Q :=
  Py.maxQ 0 (t - frame_duration).

(** Right arrow *)
Definition seeked_right (duration t : Q) : Q :=
  if Py.Qltb (t + (1 # 4)) duration then (t + (1 # 4))%Q else t.

(** Left arrow *)
Definition seeked_left (t : Q) : Q := Py.maxQ 0 (t - (1 # 4)).

(** The same four steps as lines 160-173 compute them: every sum and
    difference is rounded to binary64 before it is compared and stored. *)
Definition seeked_forward_b64 (frame_duration duration t : Q) : Q :=
  let t' := B64.round (t + frame_duration) in
  if Py.Qltb t' duration then t' else t.

Definition seeked_back_b64 (frame_duration t : Q) : Q :=
  Py.maxQ 0 (B64.round (t - frame_duration)).

Definition seeked_right_b64 (duration t : Q) : Q :=
  let t' := B64.round (t + (1 # 4)) in
  if Py.Qltb t' duration then t' else t.

Definition seeked_left_b64 (t : Q) : Q :=
  Py.maxQ 0 (B64.round (t - (1 # 4))).

Fixpoint seeked_loop (e : env) (duration frame_duration : Q)
    (ins : list stimulus) : M break :=
  t ← gets current_time;
  frame ← get_frame e t;
  display_frame e (Bytes frame);;
  print (LCurrentTime t);;
  match ins with
  | [] => block
  | Fail x :: _ => raise x
  | Key ch :: ins1 =>
    if Ascii.eqb ch "q" then mret ByQuit
    else if Ascii.eqb ch "s" then
      save_frame (Bytes frame) t;;
      seeked_loop e duration frame_duration ins1
    else if Ascii.eqb ch "." then
      modify (set_current_time (seeked_forward frame_duration duration t));;
      seeked_loop e duration frame_duration ins1
    else if Ascii.eqb ch "," then
      modify (set_current_time (seeked_back frame_duration t));;
      seeked_loop e duration frame_duration ins1
    else if Ascii.eqb ch esc then
      match ins1 with
      | [] => block
      | Fail x :: _ => raise x
      | Key next1 :: [] => block
      | Key next1 :: Fail x :: _ => raise x
      | Key next1 :: Key next2 :: ins3 =>
        (if Ascii.eqb next1 "[" then
           if Ascii.eqb next2 "C" then
             modify (set_current_time (seeked_right duration t))
           else if Ascii.eqb next2 "D" then
             modify (set_current_time (seeked_left t))
           else mret tt
         else mret tt);;
        seeked_loop e duration frame_duration ins3
      end
    else seeked_loop e duration frame_duration ins1
  end.

(** *** The two sessions and the script *)

Definition select_strategy (duration : Q) : strategy :=
  if Py.Qleb duration 120 then Indexed else Seeked.

(** The branch [if duration <= 120:], a [try] with its [finally]. *)
Definition indexed_session (e : env) (duration : Q) : M break :=
  try_finally
    (print LExtracting;;
     '(d, all_frames) ← extract_all_frames e;
     modify (set_temp_dir (Some d));;
     framerate ← get_framerate e;
     indexed_loop e duration framerate d all_frames (keys e))
    (d ← gets temp_dir;
     match d with
     | Some dir => rmtree dir
     | None => raise NameError
     end).

(** The branch [else:]. *)
Definition seeked_session (e : env) (duration : Q) : M break :=
  modify (set_current_time 0);;
  framerate ← get_framerate e;
  frame_duration ← lift (divide 1 framerate);
  seeked_loop e duration frame_duration (keys e).

(** The final report. *)
Definition report : M unit :=
  saved ← gets saved_frames;
  print (LSummary (length saved));;
  modify (fun s => set_stdout (stdout s ++ map LName saved) s).

Definition main (e : env) : M break :=
  if (length (argv e) <? 2)%nat then
    print (LUsage (hd "" (argv e)));; sys_exit 1
  else
    print LControls;;
    duration ← get_duration e;
    b ← match select_strategy duration with
        | Indexed => indexed_session e duration
        | Seeked => seeked_session e duration
        end;
    report;;
    mret b.

End Scapper.

(** ** Decimal literals

    The plain decimal numbers among the strings [float()] accepts: an
    optional sign, digits, an optional fraction.  Used to run the script
    on concrete probe outputs. *)

Module Decimal.

Definition digit (c : ascii) : option Z :=
  let n := N_of_ascii c in
  if ((48 <=? n) && (n <=? 57))%N then Some (Z.of_N n - 48) else None.

Fixpoint digits (acc : Z) (s : string) : option Z :=
  match s with
  | EmptyString => Some acc
  | String c s' =>
      match digit c with
      | Some d => digits (10 * acc + d) s'
      | None => None
      end
  end.

Definition unsigned (s : string) : option Q :=
  match Py.split "." s with
  | [i] =>
      if decide (i = "") then None else inject_Z <$> digits 0 i
  | [i; f] =>
      if decide (i = "" ∧ f = "") then None
      else
        n ← digits 0 i;
        m ← digits 0 f;
        Some (inject_Z n + (m # Pos.pow 10 (Pos.of_nat (String.length f))))%Q
  | _ => None
  end.

Definition parse (s : string) : option Q :=
  match s with
  | String "-" s' => Qopp <$> unsigned s'
  | String "+" s' => unsigned s'
  | _ => unsigned s
  end.

End Decimal.

(** ** The loops, one keystroke at a time

    Both loops read a key and dispatch on it in the same way.  The
    definitions below name the pieces of that dispatch: the logical
    keystroke a read amounts to, and the position each keystroke leads to.
    The loops are shown equal to their reading through these pieces in
    [indexed_loop_eq] and [seeked_loop_eq]. *)

Inductive key_event :=
  | Quit | Save | StepForward | StepBack | JumpForward | JumpBack | Ignored.

Inductive reading :=
  | NoInput
  | ReadFails (x : exn)
  | Event (ev : key_event) (rest : list stimulus).

Definition read_key (ins : list stimulus) : reading :=
  match ins with
  | [] => NoInput
  | Fail x :: _ => ReadFails x
  | Key ch :: ins1 =>
      if Ascii.eqb ch "q" then Event Quit ins1
      else if Ascii.eqb ch "s" then Event Save ins1
      else if Ascii.eqb ch "." then Event StepForward ins1
      else if Ascii.eqb ch "," then Event StepBack ins1
      else if Ascii.eqb ch esc then
        match ins1 with
        | [] => NoInput
        | Fail x :: _ => ReadFails x
        | Key next1 :: [] => NoInput
        | Key next1 :: Fail x :: _ => ReadFails x
        | Key next1 :: Key next2 :: ins3 =>
            Event (if Ascii.eqb next1 "[" then
                     if Ascii.eqb next2 "C" then JumpForward
                     else if Ascii.eqb next2 "D" then JumpBack
                     else Ignored
                   else Ignored) ins3
        end
      else Event Ignored ins1
  end.

Definition indexed_nav (framerate : Q) (total_frames : Z) (ev : key_event)
    (current : Z) : Z :=
  match ev with
  | StepForward => indexed_forward total_frames current
  | StepBack => indexed_back current
  | JumpForward => indexed_right framerate total_frames current
  | JumpBack => indexed_left framerate current
  | _ => current
  end.

Definition seeked_nav (frame_duration duration : Q) (ev : key_event)
    (t : Q) : Q :=
  match ev with
  | StepForward => seeked_forward frame_duration duration t
  | StepBack => seeked_back frame_duration t
  | JumpForward => seeked_right duration t
  | JumpBack => seeked_left t
  | _ => t
  end.

Definition seeked_nav_b64 (frame_duration duration : Q) (ev : key_event)
    (t : Q) : Q :=
  match ev with
  | StepForward => seeked_forward_b64 frame_duration duration t
  | StepBack => seeked_back_b64 frame_duration t
  | JumpForward => seeked_right_b64 duration t
  | JumpBack => seeked_left_b64 t
  | _ => t
  end.

(** The state after [print(l)], and after a successful [save_frame]. *)
Definition printed (l : line) (s : state) : state :=
  set_stdout (stdout s ++ [l]) s.

Definition saved (filename data : string) (s : state) : state :=
  printed (LSaved filename)
    (set_saved_frames (saved_frames s ++ [filename])
       (set_cwd (<[filename := data]> (cwd s)) s)).

(** The file names of the "Saved ..." lines of an output, in the order
    they were printed. *)
Definition saved_log (o : list line) : list string :=
  omap (fun l => match l with LSaved f => Some f | _ => None end) o.

(** What [save_frame] writes for a frame: the bytes themselves, or the
    contents of the extracted file. *)
Definition frame_content (frame : frame_data) (s : state) : option string :=
  match frame with
  | Bytes image => Some image
  | Path dir n => tmpdirs s !! dir ≫= (.!! n)
  end.

(** The three decimal digits of a number below 1000. *)
Definition three_digits (k : Z) : string :=
  String (ascii_of_N (Z.to_N (48 + k / 100)))
    (String (ascii_of_N (Z.to_N (48 + k / 10 mod 10)))
       (String (ascii_of_N (Z.to_N (48 + k mod 10))) EmptyString)).

(** The saves of a run: the names it appended to [saved_frames], which are
    the names of the "Saved ..." lines it printed, in that order. *)
Definition records (s s' : state) (names : list string) : Prop :=
  saved_frames s' = saved_frames s ++ names
  /\ saved_log (stdout s') = saved_log (stdout s) ++ names.

(** ** Sample runs

    A one-minute clip whose extraction ended with [status] and wrote the
    frames [written], and a ten-minute film; the renderer works. *)

Definition clip (status : Z) (written : list (Z * string))
    (keys : list stimulus) : env :=
  mkEnv ["scapper.py"; "clip.mp4"]
        (Exited 0 ("60.000000" +:+ nl))
        (Exited 0 ("30/1" +:+ nl))
        (Exited status "") written
        (fun _ => NotStarted)
        (fun _ => Exited 0 "")
        keys.

Definition film (keys : list stimulus) : env :=
  mkEnv ["scapper.py"; "film.mp4"]
        (Exited 0 ("600.000000" +:+ nl))
        (Exited 0 ("30000/1001" +:+ nl))
        NotStarted []
        (fun t => Exited 0 ("image at " +:+ Py.format_3f t))
        (fun _ => Exited 0 "")
        keys.

(** ** The vocabulary of the specification *)

Module Spec.

(** The key decoder of the specification: one event per logical
    keystroke; an escape byte takes the two bytes that follow it. *)
Fixpoint decode (ins : list stimulus) : list key_event :=
  match ins with
  | Key ch :: ins1 =>
      if Ascii.eqb ch "q" then Quit :: decode ins1
      else if Ascii.eqb ch "s" then Save :: decode ins1
      else if Ascii.eqb ch "." then StepForward :: decode ins1
      else if Ascii.eqb ch "," then StepBack :: decode ins1
      else if Ascii.eqb ch esc then
        match ins1 with
        | Key next1 :: Key next2 :: ins3 =>
            (if Ascii.eqb next1 "[" && Ascii.eqb next2 "C" then JumpForward
             else if Ascii.eqb next1 "[" && Ascii.eqb next2 "D" then JumpBack
             else Ignored) :: decode ins3
        | _ => []
        end
      else Ignored :: decode ins1
  | _ => []
  end.

(** The Save events processed before the session quits. *)
Fixpoint saves_until_quit (evs : list key_event) : nat :=
  match evs with
  | [] => O
  | Quit :: _ => O
  | Save :: evs' => S (saves_until_quit evs')
  | _ :: evs' => saves_until_quit evs'
  end.


(** [round(x)], Python's: to the nearest integer, ties to even. *)
Definition round (x : Q) : Z := Py.round_half_even x.

(** [max(1, round(framerate * seconds))] *)
Definition jump_frames (framerate seconds : Q) : Z :=
  Z.max 1 (round (framerate * seconds)).

End Spec.

(** ** Runs read as a whole

    The definitions below serve the properties of whole runs. *)


(** The distance within which the two roundings of line 125 keep the
    timestamp [x], for durations up to 120 s; and whether [x] lies
    farther than that from every midpoint between two thousandths, where
    the three decimals of the file name change. *)
Definition rounding_margin (x : Q) : Q :=
  (x * 2 ^ (-51) + 2 ^ (-1000))%Q.

Definition clear_of_ties (x : Q) : bool :=
  let m := inject_Z (Py.round_half_even (x * 1000)) in
  Py.Qltb (m - (1 # 2)) ((x - rounding_margin x) * 1000)
  && Py.Qltb ((x + rounding_margin x) * 1000) (m + (1 # 2)).

(** The timestamp a run of the seeked loop is at after the events of the
    table of keystrokes, and the names of its saves, with the steps as
    binary64 arithmetic computes them. *)
Fixpoint seeked_replay (frame_duration duration : Q)
    (evs : list key_event) (t : Q) : Q * list string :=
  match evs with
  | [] => (t, [])
  | Quit :: _ => (t, [])
  | Save :: evs' =>
      let '(final, names) :=
        seeked_replay frame_duration duration evs' t in
      (final, frame_filename t :: names)
  | ev :: evs' =>
      seeked_replay frame_duration duration evs'
        (seeked_nav_b64 frame_duration duration ev t)
  end.

(** Whether the sum or difference an event forms at [t] is a binary64
    number, and whether that holds of every event of a run. *)
Definition exact_step (frame_duration : Q) (ev : key_event) (t : Q)
    : bool :=
  match ev with
  | StepForward => B64.exact (t + frame_duration)
  | StepBack => B64.exact (t - frame_duration)
  | JumpForward => B64.exact (t + (1 # 4))
  | JumpBack => B64.exact (t - (1 # 4))
  | _ => true
  end.

Fixpoint exact_run (frame_duration duration : Q)
    (evs : list key_event) (t : Q) : bool :=
  match evs with
  | [] => true
  | Quit :: _ => true
  | ev :: evs' =>
      exact_step frame_duration ev t
      && exact_run frame_duration duration evs'
           (seeked_nav_b64 frame_duration duration ev t)
  end.

(** Whether a Quit is among the events. *)
Fixpoint quits (evs : list key_event) : bool :=
  match evs with
  | [] => false
  | Quit :: _ => true
  | _ :: evs' => quits evs'
  end.

(** What a run may do to the outside: it appends [names] to
    [saved_frames], prints lines among which the "Saved ..." lines are
    those of [names] and none is the summary, writes the files of [names]
    in the working directory and leaves every other file as it was. *)
Definition effects (s s' : state) (names : list string) : Prop :=
  saved_frames s' = saved_frames s ++ names
  /\ (exists out,
        stdout s' = stdout s ++ out
        /\ saved_log out = names
        /\ forall n, LSummary n ∉ out)
  /\ dom (cwd s') = dom (cwd s) ∪ list_to_set names
  /\ (forall f, f ∉ names -> cwd s' !! f = cwd s !! f).

(** The state after the final report (source lines 175-177). *)
Definition reported (s : state) : state :=
  set_stdout
    (stdout s ++ LSummary (length (saved_frames s))
       :: map LName (saved_frames s)) s.

(** The environment [e] with another renderer. *)
Definition with_viu (v : frame_data -> process) (e : env) : env :=
  mkEnv (argv e) (ffprobe_duration e) (ffprobe_framerate e) (ffmpeg_bulk e)
        (ffmpeg_written e) (ffmpeg_seek e) v (keys e).

(** * Properties *)

(** ** The sample runs *)

(** A film of ten minutes at 30000/1001 frames per second: one step
    forward, a save, a jump forward, a save, two steps back, quit. *)
Example film_session :
  let run := main Decimal.parse
               (film [Key "."; Key "s"; Key esc; Key "["; Key "C"; Key "s";
                      Key ","; Key ","; Key "q"])
               (initial ∅ ∅) in
  run.1 = Ret ByQuit
  /\ saved_frames run.2 = ["frame_0.033.png"; "frame_0.283.png"]
  /\ (current_time run.2 == (1 # 4) - (1001 # 30000))%Q
  /\ cwd run.2
     = {[ "frame_0.033.png" := "image at 0.033";
          "frame_0.283.png" := "image at 0.283" ]}.
Proof. vm_compute. repeat split; reflexivity. Qed.

(** A clip of one minute from which no frame was extracted. *)
Example empty_clip_session :
  let run := main Decimal.parse (clip 0 [] [Key "q"]) (initial ∅ ∅) in
  run.1 = Ret ByOutOfRange
  /\ stdout run.2 = [LControls; LExtracting; LOutOfRange; LSummary 0]
  /\ tmpdirs run.2 = ∅.
Proof. vm_compute. repeat split; reflexivity. Qed.

(** No video on the command line. *)
Example usage_message :
  let run := main Decimal.parse
               (mkEnv ["scapper.py"] NotStarted NotStarted NotStarted []
                      (fun _ => NotStarted) (fun _ => NotStarted) [])
               (initial ∅ ∅) in
  run.1 = Raise (SystemExit 1)
  /\ map render (stdout run.2) = ["Usage: scapper.py video.mp4"].
Proof. vm_compute. repeat split; reflexivity. Qed.

(** ** The monad and the external calls *)

Lemma bind_eq {A B} (m : M A) (k : A -> M B) s :
  (m ≫= k) s = match m s with
               | (Ret a, s') => k a s'
               | (Raise e, s') => (Raise e, s')
               | (Block, s') => (Block, s')
               end.
Proof. reflexivity. Qed.

Lemma display_frame_eq e f s :
  display_frame e f s =
  (match viu e f with
   | NotStarted => Raise OSError
   | Exited _ _ => Ret tt
   end, s).
Proof.
  unfold display_frame, try_except, lift. rewrite bind_eq.
  destruct (viu e f); simpl; reflexivity.
Qed.

(** The case analysis of a loop on the keys it reads. *)
Ltac dispatch :=
  repeat match goal with
         | |- context [if Ascii.eqb ?a ?b then _ else _] =>
             destruct (Ascii.eqb a b); try done
         | |- context [match ?l with [] => _ | _ :: _ => _ end] =>
             is_var l; destruct l as [|[?|?] ?]; try done
         end.

Lemma read_key_shorter ins ev rest :
  read_key ins = Event ev rest -> (length rest < length ins)%nat.
Proof.
  unfold read_key. intros H.
  repeat match type of H with
         | match ?l with _ => _ end = _ => destruct l; simplify_eq/=
         | (if ?b then _ else _) = _ => destruct b; simplify_eq/=
         end; lia.
Qed.

Lemma decode_read_key ins :
  Spec.decode ins = match read_key ins with
                    | Event ev rest => ev :: Spec.decode rest
                    | _ => []
                    end.
Proof.
  destruct ins as [|[ch|x] ins1]; [done| |done].
  cbn [Spec.decode read_key]. dispatch.
Qed.

Lemma set_current_frame_id s : set_current_frame (current_frame s) s = s.
Proof. by destruct s. Qed.

Lemma set_current_time_id s : set_current_time (current_time s) s = s.
Proof. by destruct s. Qed.

(** ** The loops, unfolded once *)

Section Loops.
Variables (e : env) (duration : Q).

Lemma indexed_loop_eq framerate dir all_frames ins s :
  indexed_loop e duration framerate dir all_frames ins s =
  let total := Z.of_nat (length all_frames) in
  let current := current_frame s in
  if (0 <=? current) && (current <? total) then
    match all_frames !! Z.to_nat current with
    | None => (Raise IndexError, s)
    | Some n =>
        match viu e (Path dir n) with
        | NotStarted => (Raise OSError, s)
        | Exited _ _ =>
            let s1 := printed (LCurrentFrame (current + 1) total) s in
            match read_key ins with
            | NoInput => (Block, s1)
            | ReadFails x => (Raise x, s1)
            | Event Quit _ => (Ret ByQuit, s1)
            | Event Save rest =>
                match save_frame (Path dir n)
                        (indexed_timestamp duration total current) s1 with
                | (Ret _, s2) =>
                    indexed_loop e duration framerate dir all_frames rest s2
                | (Raise x, s2) => (Raise x, s2)
                | (Block, s2) => (Block, s2)
                end
            | Event ev rest =>
                indexed_loop e duration framerate dir all_frames rest
                  (set_current_frame
                     (indexed_nav framerate total ev current) s1)
            end
        end
    end
  else (Ret ByOutOfRange, printed LOutOfRange s).
Proof.
  destruct ins as [|k ins1]; cbn [indexed_loop]; rewrite bind_eq; cbn [gets].
  all: cbn zeta; set (total := Z.of_nat (length all_frames)).
  all: destruct (_ && _); [|done].
  all: destruct (all_frames !! Z.to_nat (current_frame s)) as [n|]; [|done].
  all: rewrite bind_eq, display_frame_eq.
  all: destruct (viu e (Path dir n)); [|done].
  all: rewrite bind_eq; cbn [print modify].
  all: fold (printed (LCurrentFrame (current_frame s + 1) total) s).
  all: set (s1 := printed _ s).
  - done.
  - destruct k as [ch|x]; [|done].
    cbn [read_key]. dispatch.
    all: rewrite ?bind_eq; cbn [mret M_ret indexed_nav].
    all: change (current_frame s) with (current_frame s1).
    all: by rewrite set_current_frame_id.
Qed.

Lemma get_frame_eq t s :
  get_frame e t s =
  match ffmpeg_seek e t with
  | NotStarted => (Raise OSError, s)
  | Exited st out =>
      if st =? 0 then (Ret out, s)
      else (Raise (SystemExit 1), printed LErrFrame s)
  end.
Proof.
  unfold get_frame, try_except, lift, check_output, subprocess_run.
  destruct (ffmpeg_seek e t) as [st out|]; [|done].
  destruct (st =? 0); done.
Qed.

Lemma seeked_loop_eq frame_duration ins s :
  seeked_loop e duration frame_duration ins s =
  let t := current_time s in
  match ffmpeg_seek e t with
  | NotStarted => (Raise OSError, s)
  | Exited st frame =>
    if st =? 0 then
      match viu e (Bytes frame) with
      | NotStarted => (Raise OSError, s)
      | Exited _ _ =>
          let s1 := printed (LCurrentTime t) s in
          match read_key ins with
          | NoInput => (Block, s1)
          | ReadFails x => (Raise x, s1)
          | Event Quit _ => (Ret ByQuit, s1)
          | Event Save rest =>
              match save_frame (Bytes frame) t s1 with
              | (Ret _, s2) => seeked_loop e duration frame_duration rest s2
              | (Raise x, s2) => (Raise x, s2)
              | (Block, s2) => (Block, s2)
              end
          | Event ev rest =>
              seeked_loop e duration frame_duration rest
                (set_current_time
                   (seeked_nav frame_duration duration ev t) s1)
          end
      end
    else (Raise (SystemExit 1), printed LErrFrame s)
  end.
Proof.
  destruct ins as [|k ins1]; cbn [seeked_loop]; rewrite bind_eq; cbn [gets].
  all: cbn zeta; rewrite bind_eq, get_frame_eq.
  all: destruct (ffmpeg_seek e (current_time s)) as [st frame|]; [|done].
  all: destruct (st =? 0); [|done].
  all: rewrite bind_eq, display_frame_eq.
  all: destruct (viu e (Bytes frame)); [|done].
  all: rewrite bind_eq; cbn [print modify].
  all: fold (printed (LCurrentTime (current_time s)) s).
  all: set (s1 := printed _ s).
  - done.
  - destruct k as [ch|x]; [|done].
    cbn [read_key]. dispatch.
    all: rewrite ?bind_eq; cbn [mret M_ret seeked_nav].
    all: change (current_time s) with (current_time s1).
    all: by rewrite set_current_time_id.
Qed.

End Loops.

(** ** Arithmetic of the built-ins *)

Lemma maxZ_max a b : Py.maxZ a b = Z.max a b.
Proof. unfold Py.maxZ. destruct (Z.ltb_spec a b); lia. Qed.

Lemma minZ_min a b : Py.minZ a b = Z.min a b.
Proof. unfold Py.minZ. destruct (Z.ltb_spec b a); lia. Qed.

Lemma Qltb_lt a b : Py.Qltb a b = true <-> (a < b)%Q.
Proof.
  unfold Py.Qltb. rewrite Qlt_alt. destruct (a ?= b)%Q; split; congruence.
Qed.

Lemma Qltb_ge a b : Py.Qltb a b = false <-> (b <= a)%Q.
Proof.
  split.
  - intros H. apply Qnot_lt_le. intros L%Qltb_lt. congruence.
  - intros H. destruct (Py.Qltb a b) eqn:E; [|done].
    apply Qltb_lt in E. by apply Qle_not_lt in H.
Qed.

Lemma Qleb_le a b : Py.Qleb a b = true <-> (a <= b)%Q.
Proof.
  unfold Py.Qleb. rewrite Qle_alt. destruct (a ?= b)%Q; split; congruence.
Qed.

Lemma Qleb_gt a b : Py.Qleb a b = false <-> (b < a)%Q.
Proof.
  split.
  - intros H. apply Qnot_le_lt. intros L%Qleb_le. congruence.
  - intros H. destruct (Py.Qleb a b) eqn:E; [|done].
    apply Qleb_le in E. by apply Qlt_not_le in H.
Qed.

Lemma frames_to_move_pos framerate : 1 <= frames_to_move framerate.
Proof. unfold frames_to_move. rewrite maxZ_max. lia. Qed.

Lemma indexed_nav_bounds framerate total ev current :
  0 <= current <= total - 1 ->
  0 <= indexed_nav framerate total ev current <= total - 1.
Proof.
  intros H. pose proof (frames_to_move_pos framerate).
  destruct ev; cbn [indexed_nav]; try lia;
    unfold indexed_forward, indexed_back, indexed_right, indexed_left;
    rewrite ?maxZ_max, ?minZ_min; try lia.
  destruct (Z.ltb_spec current (total - 1)); lia.
Qed.

Lemma frame_duration_pos framerate : (0 < framerate -> 0 < 1 / framerate)%Q.
Proof.
  intros H. unfold Qdiv. rewrite Qmult_1_l. by apply Qinv_lt_0_compat.
Qed.

Lemma guarded_add_bounds (d duration t : Q) :
  (0 < d -> 0 <= t < duration ->
   0 <= (if Py.Qltb (t + d) duration then t + d else t) < duration)%Q.
Proof.
  intros Hd [H0 H1].
  destruct (Py.Qltb (t + d) duration) eqn:E; [|done].
  apply Qltb_lt in E. split; lra.
Qed.

Lemma floored_sub_bounds (d duration t : Q) :
  (0 < d -> 0 <= t < duration -> 0 <= Py.maxQ 0 (t - d) < duration)%Q.
Proof.
  intros Hd [H0 H1]. unfold Py.maxQ.
  destruct (Py.Qltb 0 (t - d)) eqn:E.
  - apply Qltb_lt in E. split; lra.
  - split; lra.
Qed.

Lemma seeked_nav_bounds frame_duration duration ev t :
  (0 < frame_duration -> 0 <= t < duration ->
   0 <= seeked_nav frame_duration duration ev t < duration)%Q.
Proof.
  intros Hd Ht.
  destruct ev; cbn [seeked_nav]; try done;
    unfold seeked_forward, seeked_back, seeked_right, seeked_left.
  - by apply guarded_add_bounds.
  - by apply floored_sub_bounds.
  - by apply guarded_add_bounds.
  - by apply floored_sub_bounds.
Qed.

Lemma stimuli_ind (P : list stimulus -> Prop) :
  (forall ins,
     (forall rest, (length rest < length ins)%nat -> P rest) -> P ins) ->
  forall ins, P ins.
Proof.
  intros H ins. remember (length ins) as n eqn:Hn.
  revert ins Hn. induction n as [n IH] using lt_wf_ind.
  intros ins ->. apply H. intros rest Hlt. by eapply IH.
Qed.

Lemma save_frame_eq frame t s :
  save_frame frame t s =
  match frame with
  | Bytes image => (Ret tt, saved (frame_filename t) image s)
  | Path dir n =>
      match tmpdirs s !! dir ≫= (.!! n) with
      | Some data => (Ret tt, saved (frame_filename t) data s)
      | None => (Raise OSError, s)
      end
  end.
Proof.
  unfold save_frame. rewrite bind_eq. destruct frame as [image|dir n].
  - done.
  - rewrite bind_eq. unfold read_frame_file.
    by destruct (tmpdirs s !! dir ≫= (.!! n)).
Qed.

Section IndexedBounds.
Variables (e : env) (duration framerate : Q).
Variables (dir : string) (all_frames : list Z).
Let total := Z.of_nat (length all_frames).

Lemma indexed_loop_bounds ins : forall s,
  0 <= current_frame s <= total - 1 ->
  0 <= current_frame
         (indexed_loop e duration framerate dir all_frames ins s).2
    <= total - 1.
Proof.
  induction ins as [ins IH] using stimuli_ind. intros s Hs.
  rewrite indexed_loop_eq. cbn zeta. fold total.
  destruct (_ && _); [|done].
  destruct (all_frames !! _) as [n|]; [|done].
  destruct (viu e _); [|done].
  destruct (read_key ins) as [| |ev rest] eqn:Hk; [done|done|].
  apply read_key_shorter in Hk.
  destruct ev; try (apply IH; [done|]; by apply indexed_nav_bounds).
  - done.
  - rewrite save_frame_eq.
    destruct (_ ≫= _); [|done]. by apply IH.
Qed.
End IndexedBounds.

Section SeekedBounds.
Variables (e : env) (duration frame_duration : Q).

Lemma seeked_loop_bounds ins : forall s,
  (0 < frame_duration)%Q ->
  (0 <= current_time s < duration)%Q ->
  (0 <= current_time (seeked_loop e duration frame_duration ins s).2
   < duration)%Q.
Proof.
  induction ins as [ins IH] using stimuli_ind. intros s Hd Hs.
  rewrite seeked_loop_eq. cbn zeta.
  destruct (ffmpeg_seek e _) as [st frame|]; [|done].
  destruct (st =? 0); [|done].
  destruct (viu e _); [|done].
  destruct (read_key ins) as [| |ev rest] eqn:Hk; [done|done|].
  apply read_key_shorter in Hk.
  destruct ev; try (apply IH; [done|done|]; by apply seeked_nav_bounds).
  - done.
  - rewrite save_frame_eq. by apply IH.
Qed.
End SeekedBounds.

Lemma indexed_back_at_0 n framerate total :
  Nat.iter n (indexed_nav framerate total StepBack) 0 = 0.
Proof. induction n as [|n IH]; [done|]. by rewrite Nat.iter_succ, IH. Qed.

Lemma seeked_back_at_0 n frame_duration duration :
  (0 < frame_duration)%Q ->
  Nat.iter n (seeked_nav frame_duration duration StepBack) 0%Q = 0%Q.
Proof.
  intros Hd. induction n as [|n IH]; [done|]. rewrite Nat.iter_succ, IH.
  cbn [seeked_nav]. unfold seeked_back, Py.maxQ.
  destruct (Py.Qltb 0 (0 - frame_duration)) eqn:E; [|done].
  apply Qltb_lt in E. lra.
Qed.

(** Running the loop on n presses of ',' from index 0 *)
Lemma indexed_loop_back_at_0 e duration framerate dir all_frames n : forall s,
  current_frame s = 0 ->
  current_frame (indexed_loop e duration framerate dir all_frames
                   (replicate n (Key ",")) s).2 = 0.
Proof.
  induction n as [|n IH]; intros s Hs; rewrite indexed_loop_eq; cbn zeta.
  all: destruct (_ && _); [|done].
  all: destruct (all_frames !! _) as [m|]; [|done].
  all: destruct (viu e _); [|done].
  - done.
  - cbn [replicate read_key]. change (Ascii.eqb "," "q") with false. cbv iota.
    cbn. apply IH. cbn. by rewrite Hs.
Qed.

Lemma saved_log_app o1 o2 :
  saved_log (o1 ++ o2) = saved_log o1 ++ saved_log o2.
Proof. apply omap_app. Qed.

(** ** The probes *)

Lemma split_no_sep sep s : Py.contains sep s = false -> Py.split sep s = [s].
Proof.
  induction s as [|c s IH]; [done|]. cbn [Py.contains Py.split].
  intros [Hc Hs]%orb_false_iff. rewrite Hc, (IH Hs). done.
Qed.

Lemma split_sep sep a b :
  Py.contains sep a = false ->
  Py.split sep (a +:+ String sep b) = a :: Py.split sep b.
Proof.
  induction a as [|c a IH]; simpl.
  - intros _. by rewrite Ascii.eqb_refl.
  - intros [Hc Hs]%orb_false_iff. by rewrite Hc, (IH Hs).
Qed.

Section Probes.
Variable fos : string -> option Q.

Lemma get_duration_eq e s :
  get_duration fos e s =
  match ffprobe_duration e with
  | Exited st out =>
      if st =? 0 then
        match fos (Py.strip out) with
        | Some d => (Ret d, s)
        | None => (Raise (SystemExit 1), printed LErrDuration s)
        end
      else (Raise (SystemExit 1), printed LErrDuration s)
  | NotStarted => (Raise (SystemExit 1), printed LErrDuration s)
  end.
Proof.
  unfold get_duration, try_except_all. rewrite bind_eq.
  unfold lift, check_output, subprocess_run, float.
  destruct (ffprobe_duration e) as [st out|]; [|done].
  destruct (st =? 0); cbn [andb negb snd]; [|done].
  by destruct (fos (Py.strip out)).
Qed.

Lemma unpack2_fails parts :
  (exists part, part ∈ parts /\ fos part = None) ->
  unpack2 fos parts = Raise ValueError.
Proof.
  intros (part & Hin & Hp).
  destruct parts as [|a [|b [|c parts]]]; try done.
  cbn [unpack2]. unfold float.
  assert (part = a \/ part = b) as [->| ->].
  { apply elem_of_cons in Hin as [?|Hin]; [by left|].
    apply elem_of_cons in Hin as [?|Hin]; [by right|].
    by apply elem_of_nil in Hin. }
  - by rewrite Hp.
  - rewrite Hp. by destruct (fos a).
Qed.

Lemma get_framerate_probe_failed e s :
  (forall out, ffprobe_framerate e <> Exited 0 out) ->
  get_framerate fos e s = (Ret 30%Q, printed LErrFramerate s).
Proof.
  intros H. unfold get_framerate, try_except_all. rewrite bind_eq.
  unfold lift, check_output, subprocess_run.
  destruct (ffprobe_framerate e) as [st out|]; [|done].
  destruct (Z.eqb_spec st 0) as [->|]; [by destruct (H out)|done].
Qed.

Lemma get_framerate_output e s out :
  ffprobe_framerate e = Exited 0 out ->
  let fr := Py.strip out in
  get_framerate fos e s =
  if decide (fr = "") then (Ret 30%Q, s)
  else match unpack2 fos (Py.split "/" fr) with
       | Ret (num, den) =>
           if Qeq_bool den 0 then (Ret 30%Q, printed LErrFramerate s)
           else (Ret (num / den)%Q, s)
       | _ => match fos fr with
              | Some x => (Ret x, s)
              | None => (Ret 30%Q, printed LErrFramerate s)
              end
       end.
Proof.
  intros H fr. unfold get_framerate, try_except_all. rewrite bind_eq.
  unfold lift, check_output, subprocess_run. rewrite H.
  cbn [Z.eqb andb negb snd].
  fold fr. case_decide; [done|].
  unfold try_except. rewrite bind_eq.
  destruct (unpack2 fos _) as [[num den]|x|] eqn:Hu.
  - unfold divide. by destruct (Qeq_bool den 0).
  - assert (x = ValueError) as ->.
    { unfold unpack2, float in Hu. repeat case_match; by simplify_eq. }
    cbn. unfold float. by destruct (fos fr).
  - unfold unpack2, float in Hu. repeat case_match; simplify_eq.
Qed.
End Probes.

Lemma seeked_loop_back_at_0 e duration frame_duration n : forall s,
  (0 < frame_duration)%Q ->
  current_time s = 0%Q ->
  current_time (seeked_loop e duration frame_duration
                  (replicate n (Key ",")) s).2 = 0%Q.
Proof.
  induction n as [|n IH]; intros s Hd Hs; rewrite seeked_loop_eq; cbn zeta.
  all: destruct (ffmpeg_seek e _) as [st frame|]; [|done].
  all: destruct (st =? 0); [|done].
  all: destruct (viu e _); [|done].
  - done.
  - cbn [replicate read_key]. change (Ascii.eqb "," "q") with false. cbv iota.
    cbn. apply IH; [done|]. cbn. rewrite Hs.
    exact (seeked_back_at_0 1 frame_duration duration Hd).
Qed.

Lemma get_framerate_returns fos e s :
  exists framerate s',
    get_framerate fos e s = (Ret framerate, s')
    /\ (s' = s \/ s' = printed LErrFramerate s).
Proof.
  destruct (ffprobe_framerate e) as [st out|] eqn:Hp.
  - destruct (Z.eqb_spec st 0) as [->|Hst].
    + rewrite (get_framerate_output fos e s out Hp). cbn zeta.
      case_decide; [eauto|].
      destruct (unpack2 fos _) as [[num den]|x|].
      * destruct (Qeq_bool den 0); eauto.
      * destruct (fos _); eauto.
      * destruct (fos _); eauto.
    + rewrite get_framerate_probe_failed; [eauto|].
      intros out' Heq. rewrite Hp in Heq. congruence.
  - rewrite get_framerate_probe_failed; [eauto|].
    intros out' Heq. rewrite Hp in Heq. congruence.
Qed.

(** ** Jumps of the indexed loop *)

Lemma int_nonneg x : (0 <= x)%Q -> Py.int x = Qfloor x.
Proof.
  destruct x as [n d]. unfold Qle, Py.int, Qfloor. cbn. intros H.
  apply Z.quot_div_nonneg; lia.
Qed.

Lemma int_nonpos x : (x <= 0)%Q -> Py.int x = Qceiling x.
Proof.
  destruct x as [n d]. unfold Qle, Py.int, Qceiling, Qfloor. cbn. intros H.
  rewrite <- (Z.opp_involutive n) at 1.
  rewrite Z.quot_opp_l by lia. f_equal.
  apply Z.quot_div_nonneg; lia.
Qed.

Lemma indexed_loop_key e duration framerate dir all_frames ins s ev rest :
  0 <= current_frame s <= Z.of_nat (length all_frames) - 1 ->
  (forall f, viu e f <> NotStarted) ->
  read_key ins = Event ev rest ->
  ev <> Quit -> ev <> Save ->
  indexed_loop e duration framerate dir all_frames ins s =
  indexed_loop e duration framerate dir all_frames rest
    (set_current_frame
       (indexed_nav framerate (Z.of_nat (length all_frames)) ev
                    (current_frame s))
       (printed (LCurrentFrame (current_frame s + 1)
                               (Z.of_nat (length all_frames))) s)).
Proof.
  intros Hb Hviu Hk Hq Hs. rewrite indexed_loop_eq. cbn zeta.
  replace (_ && _) with true by (symmetry; apply andb_true_iff; lia).
  destruct (lookup_lt_is_Some_2 all_frames (Z.to_nat (current_frame s)))
    as [n ->]; [lia|].
  specialize (Hviu (Path dir n)). destruct (viu e _); [|done].
  rewrite Hk. by destruct ev.
Qed.

Lemma seeked_loop_key e duration frame_duration ins s ev rest frame :
  ffmpeg_seek e (current_time s) = Exited 0 frame ->
  (forall f, viu e f <> NotStarted) ->
  read_key ins = Event ev rest ->
  ev <> Quit -> ev <> Save ->
  seeked_loop e duration frame_duration ins s =
  seeked_loop e duration frame_duration rest
    (set_current_time
       (seeked_nav frame_duration duration ev (current_time s))
       (printed (LCurrentTime (current_time s)) s)).
Proof.
  intros Hf Hviu Hk Hq Hs. rewrite seeked_loop_eq. cbn zeta.
  rewrite Hf. cbn [Z.eqb].
  specialize (Hviu (Bytes frame)). destruct (viu e _); [|done].
  rewrite Hk. by destruct ev.
Qed.

(** ** Strategy selection *)

Lemma main_dispatch fos e s d s1 :
  (2 <= length (argv e))%nat ->
  get_duration fos e (printed LControls s) = (Ret d, s1) ->
  main fos e s =
  (b ← match select_strategy d with
       | Indexed => indexed_session fos e d
       | Seeked => seeked_session fos e d
       end;
   report;; mret b) s1.
Proof.
  intros Hargv Hd. unfold main.
  destruct (Nat.ltb_spec (length (argv e)) 2) as [|_]; [lia|].
  rewrite bind_eq. cbn [print modify]. fold (printed LControls s).
  rewrite bind_eq, Hd. done.
Qed.

(** ** Saving a frame *)

Lemma round_half_even_near x :
  (Qabs (x - inject_Z (Py.round_half_even x)) <= 1 # 2)%Q.
Proof.
  destruct x as [n d]. unfold Py.round_half_even. cbn [Qnum Qden].
  pose proof (Z.div_mod n (Z.pos d) ltac:(lia)) as Hdm.
  pose proof (Z.mod_pos_bound n (Z.pos d) ltac:(lia)) as Hr.
  set (f := n / Z.pos d) in *. set (r := n mod Z.pos d) in *.
  apply Qabs_Qle_condition.
  destruct (Z.compare_spec (2 * r) (Z.pos d)) as [He|Hl|Hg];
    [destruct (Z.even f)|..];
    unfold Qle, Qminus, Qplus, Qopp, inject_Z; cbn [Qnum Qden]; split; nia.
Qed.

Lemma round_half_even_nonneg x : (0 <= x)%Q -> 0 <= Py.round_half_even x.
Proof.
  destruct x as [n d]. unfold Qle, Py.round_half_even. cbn [Qnum Qden].
  intros Hn. assert (0 <= n / Z.pos d) by (apply Z.div_pos; lia).
  destruct (_ ?= _); [destruct (Z.even _)|..]; lia.
Qed.

Lemma pad3_digits k : 0 <= k < 1000 -> Py.pad3 k = three_digits k.
Proof.
  intros Hk.
  assert (H : forallb (fun k => bool_decide (Py.pad3 k = three_digits k))
                (seqZ 0 1000) = true) by (vm_compute; reflexivity).
  rewrite forallb_forall in H.
  specialize (H k). rewrite bool_decide_eq_true in H. apply H.
  apply list_elem_of_In, elem_of_seqZ. lia.
Qed.

Lemma format_3f_shape t :
  let m := Py.round_half_even (Qabs t * 1000) in
  0 <= m
  /\ (Qabs (Qabs t * 1000 - inject_Z m) <= 1 # 2)%Q
  /\ Py.format_3f t
     = (if Py.Qltb t 0 then "-" else "")
         +:+ pretty (m / 1000) +:+ "." +:+ three_digits (m mod 1000).
Proof.
  intros m. split; [|split].
  - apply round_half_even_nonneg.
    apply Qmult_le_0_compat; [apply Qabs_nonneg|discriminate].
  - apply round_half_even_near.
  - unfold Py.format_3f. fold m. rewrite pad3_digits; [done|].
    apply Z.mod_pos_bound. lia.
Qed.

Lemma save_frame_ret frame t s s1 :
  save_frame frame t s = (Ret tt, s1) ->
  exists data,
    frame_content frame s = Some data /\ s1 = saved (frame_filename t) data s.
Proof.
  rewrite save_frame_eq. destruct frame as [image|dir n]; cbn [frame_content].
  - intros [= <-]. eauto.
  - destruct (_ ≫= _) as [data|]; [|done]. intros [= <-]. eauto.
Qed.

(** ** Probing the frame rate *)

Lemma unpack2_pair fos n d a b :
  fos n = Some a -> fos d = Some b -> unpack2 fos [n; d] = Ret (a, b).
Proof. intros Hn Hd. cbn [unpack2]. unfold float. by rewrite Hn, Hd. Qed.

Lemma unpack2_single fos x : unpack2 fos [x] = Raise ValueError.
Proof. done. Qed.

(** ** What the loops leave alone, and what they record *)

Lemma indexed_loop_frame e duration framerate dir all_frames ins : forall s,
  let s' := (indexed_loop e duration framerate dir all_frames ins s).2 in
  tmpdirs s' = tmpdirs s /\ temp_dir s' = temp_dir s.
Proof.
  induction ins as [ins IH] using stimuli_ind. intros s.
  rewrite indexed_loop_eq. cbn zeta.
  destruct (_ && _); [|done].
  destruct (all_frames !! _) as [n|]; [|done].
  destruct (viu e _); [|done].
  destruct (read_key ins) as [| |ev rest] eqn:Hk; [done|done|].
  apply read_key_shorter in Hk.
  destruct ev; try exact (IH rest Hk (set_current_frame _ _)).
  - done.
  - rewrite save_frame_eq. cbn [printed tmpdirs set_stdout].
    destruct (_ ≫= _); [|done]. exact (IH rest Hk (saved _ _ _)).
Qed.

Lemma records_refl s : records s s [].
Proof. split; by rewrite app_nil_r. Qed.

Lemma records_trans s1 s2 s3 l1 l2 :
  records s1 s2 l1 -> records s2 s3 l2 -> records s1 s3 (l1 ++ l2).
Proof.
  intros [H1 H2] [H3 H4]. split.
  - by rewrite H3, H1, app_assoc.
  - by rewrite H4, H2, app_assoc.
Qed.

Lemma records_printed l s :
  (forall f, l <> LSaved f) -> records s (printed l s) [].
Proof.
  intros Hl. split; cbn; [by rewrite app_nil_r|].
  rewrite saved_log_app, app_nil_r. cbn.
  destruct l as [| | | | | | | | | | |f| |]; cbn; try apply app_nil_r.
  by destruct (Hl f).
Qed.

Lemma records_saved filename data s :
  records s (saved filename data s) [filename].
Proof. split; cbn; [done|]. by rewrite saved_log_app. Qed.

Lemma indexed_loop_records e duration framerate dir all_frames ins :
  forall s r s',
    indexed_loop e duration framerate dir all_frames ins s = (r, s') ->
    exists names,
      records s s' names
      /\ (r = Ret ByQuit ->
          length names = Spec.saves_until_quit (Spec.decode ins)).
Proof.
  induction ins as [ins IH] using stimuli_ind. intros s r s'.
  rewrite indexed_loop_eq. cbn zeta.
  destruct (_ && _).
  2:{ intros [= <- <-]. exists []. split; [by apply records_printed|done]. }
  destruct (all_frames !! _) as [n|].
  2:{ intros [= <- <-]. exists []. split; [apply records_refl|done]. }
  destruct (viu e _).
  2:{ intros [= <- <-]. exists []. split; [apply records_refl|done]. }
  set (s1 := printed _ s).
  assert (H1 : records s s1 []) by by apply records_printed.
  rewrite decode_read_key.
  destruct (read_key ins) as [| |ev rest] eqn:Hk.
  { intros [= <- <-]. exists []. done. }
  { intros [= <- <-]. exists []. done. }
  apply read_key_shorter in Hk.
  assert (Hnav : forall i,
    indexed_loop e duration framerate dir all_frames rest
      (set_current_frame i s1) = (r, s') ->
    exists names, records s s' names
      /\ (r = Ret ByQuit ->
          length names = Spec.saves_until_quit (Spec.decode rest))).
  { intros i (names & Hr & Hq)%(IH rest Hk). exists names. split; [|done].
    exact (records_trans s s1 s' [] names H1 Hr). }
  destruct ev; try (by apply Hnav).
  - intros [= <- <-]. exists []. done.
  - rewrite save_frame_eq. destruct (_ ≫= _) as [data|].
    2:{ intros [= <- <-]. exists []. done. }
    intros (names & Hr & Hq)%(IH rest Hk).
    exists (frame_filename
              (indexed_timestamp duration (Z.of_nat (length all_frames))
                                 (current_frame s)) :: names).
    split.
    + apply (records_trans s s1 s' [] (_ :: names) H1).
      exact (records_trans _ _ _ [_] names (records_saved _ data s1) Hr).
    + intros Hret. cbn. by rewrite (Hq Hret).
Qed.

Lemma seeked_loop_records e duration frame_duration ins :
  forall s r s',
    seeked_loop e duration frame_duration ins s = (r, s') ->
    exists names,
      records s s' names
      /\ (r = Ret ByQuit ->
          length names = Spec.saves_until_quit (Spec.decode ins)).
Proof.
  induction ins as [ins IH] using stimuli_ind. intros s r s'.
  rewrite seeked_loop_eq. cbn zeta.
  destruct (ffmpeg_seek e _) as [st frame|].
  2:{ intros [= <- <-]. exists []. split; [apply records_refl|done]. }
  destruct (st =? 0).
  2:{ intros [= <- <-]. exists []. split; [by apply records_printed|done]. }
  destruct (viu e _).
  2:{ intros [= <- <-]. exists []. split; [apply records_refl|done]. }
  set (s1 := printed _ s).
  assert (H1 : records s s1 []) by by apply records_printed.
  rewrite decode_read_key.
  destruct (read_key ins) as [| |ev rest] eqn:Hk.
  { intros [= <- <-]. exists []. done. }
  { intros [= <- <-]. exists []. done. }
  apply read_key_shorter in Hk.
  assert (Hnav : forall t,
    seeked_loop e duration frame_duration rest
      (set_current_time t s1) = (r, s') ->
    exists names, records s s' names
      /\ (r = Ret ByQuit ->
          length names = Spec.saves_until_quit (Spec.decode rest))).
  { intros t (names & Hr & Hq)%(IH rest Hk). exists names. split; [|done].
    exact (records_trans s s1 s' [] names H1 Hr). }
  destruct ev; try (by apply Hnav).
  - intros [= <- <-]. exists []. done.
  - rewrite save_frame_eq.
    intros (names & Hr & Hq)%(IH rest Hk).
    exists (frame_filename (current_time s) :: names).
    split.
    + apply (records_trans s s1 s' [] (_ :: names) H1).
      exact (records_trans _ _ _ [_] names (records_saved _ frame s1) Hr).
    + intros Hret. cbn. by rewrite (Hq Hret).
Qed.

(** ** The indexed session *)

Lemma extract_all_frames_eq e s :
  extract_all_frames e s =
  let d := fresh (dom (tmpdirs s)) in
  match ffmpeg_bulk e with
  | NotStarted => (Raise OSError, set_tmpdirs (<[d := ∅]> (tmpdirs s)) s)
  | Exited _ _ =>
      let files : gmap Z string := list_to_map (ffmpeg_written e) in
      (Ret (d, merge_sort Z.le (map_to_list files).*1),
       set_tmpdirs (<[d := files]> (tmpdirs s)) s)
  end.
Proof.
  unfold extract_all_frames. rewrite bind_eq. cbn [mkdtemp].
  unfold try_except. rewrite bind_eq. unfold lift, subprocess_run.
  destruct (ffmpeg_bulk e) as [st out|]; [|done].
  cbn [andb]. rewrite bind_eq. cbn [write_frames modify tmpdirs set_tmpdirs].
  rewrite bind_eq. unfold listdir. cbn [tmpdirs set_tmpdirs].
  rewrite alter_insert_eq, lookup_insert_eq, (right_id_L ∅ (∪)).
  reflexivity.
Qed.

(** The state in which the indexed loop starts, and how the session ends
    for each way the loop ends. *)
Lemma indexed_session_exited fos e duration s st out :
  ffmpeg_bulk e = Exited st out ->
  let d := fresh (dom (tmpdirs s)) in
  let files : gmap Z string := list_to_map (ffmpeg_written e) in
  let all_frames := merge_sort Z.le (map_to_list files).*1 in
  let s1 := set_temp_dir (Some d)
              (set_tmpdirs (<[d := files]> (tmpdirs s))
                 (printed LExtracting s)) in
  exists framerate s2,
    get_framerate fos e s1 = (Ret framerate, s2)
    /\ (s2 = s1 \/ s2 = printed LErrFramerate s1)
    /\ indexed_session fos e duration s =
       match indexed_loop e duration framerate d all_frames (keys e) s2 with
       | (Block, s3) => (Block, s3)
       | (r, s3) => (r, set_tmpdirs (tmpdirs s) s3)
       end.
Proof.
  intros Hp d files all_frames s1.
  destruct (get_framerate_returns fos e s1) as (framerate & s2 & Hf & Hs2).
  exists framerate, s2. split; [done|]. split; [done|].
  unfold indexed_session, try_finally. rewrite bind_eq.
  cbn [print modify]. fold (printed LExtracting s).
  rewrite bind_eq, extract_all_frames_eq, Hp. cbn zeta.
  cbn [tmpdirs printed set_stdout]. fold d files all_frames.
  rewrite bind_eq. cbn [modify]. fold s1.
  rewrite bind_eq, Hf.
  pose proof (indexed_loop_frame e duration framerate d all_frames (keys e) s2)
    as [Ht Hd].
  assert (Ht2 : tmpdirs s2 = <[d := files]> (tmpdirs s))
    by by destruct Hs2 as [->| ->].
  assert (Hd2 : temp_dir s2 = Some d) by by destruct Hs2 as [->| ->].
  destruct (indexed_loop e duration framerate d all_frames (keys e) s2)
    as [r s3].
  cbn [snd] in Ht, Hd. rewrite Ht2 in Ht. rewrite Hd2 in Hd.
  assert (Hrm : (d0 ← gets temp_dir;
                 match d0 with
                 | Some dir => rmtree dir
                 | None => raise NameError
                 end) s3 = (Ret (), set_tmpdirs (tmpdirs s) s3)).
  { rewrite bind_eq. cbn [gets]. rewrite Hd. unfold rmtree.
    rewrite Ht, lookup_insert_eq. f_equal. f_equal.
    apply delete_insert_id, not_elem_of_dom, is_fresh. }
  destruct r; [by rewrite Hrm..|done].
Qed.

(** Before the extraction has returned the guarantee does not hold: when
    ffmpeg cannot be started, [temp_dir] is still unbound in the [finally]
    clause and the directory made by [mkdtemp] stays. *)
Lemma indexed_session_not_started fos e duration s :
  ffmpeg_bulk e = NotStarted ->
  temp_dir s = None ->
  exists s',
    indexed_session fos e duration s = (Raise NameError, s')
    /\ fresh (dom (tmpdirs s)) ∈ dom (tmpdirs s').
Proof.
  intros Hp Hd. eexists. split.
  - unfold indexed_session, try_finally. rewrite bind_eq.
    cbn [print modify]. rewrite bind_eq, extract_all_frames_eq, Hp.
    cbv beta iota zeta. rewrite bind_eq.
    cbn [gets temp_dir set_tmpdirs set_stdout]. rewrite Hd. reflexivity.
  - cbn. rewrite dom_insert_L. apply elem_of_union_l, elem_of_singleton.
    reflexivity.
Qed.

(** ** A failed extraction *)

Lemma out_of_range_at_once e duration framerate dir ins s :
  indexed_loop e duration framerate dir [] ins s
  = (Ret ByOutOfRange, printed LOutOfRange s).
Proof.
  rewrite indexed_loop_eq. cbn zeta.
  change (Z.of_nat (length (@nil Z))) with 0.
  destruct (Z.leb_spec 0 (current_frame s)),
           (Z.ltb_spec (current_frame s) 0); cbn [andb]; try done.
  lia.
Qed.

(** ** The final report *)

Lemma indexed_session_returns fos e duration s b s' :
  indexed_session fos e duration s = (Ret b, s') ->
  exists st out, ffmpeg_bulk e = Exited st out.
Proof.
  destruct (ffmpeg_bulk e) as [st out|] eqn:Hp; [eauto|].
  unfold indexed_session, try_finally. rewrite bind_eq.
  cbn [print modify]. rewrite bind_eq, extract_all_frames_eq, Hp.
  cbv beta iota zeta.
  match goal with
  | |- (let (_, _) := ?x in _) = _ -> _ => destruct x as [[| |] ?]
  end; discriminate.
Qed.

Lemma indexed_session_records fos e duration s b s' :
  indexed_session fos e duration s = (Ret b, s') ->
  exists names,
    records s s' names
    /\ (b = ByQuit ->
        length names = Spec.saves_until_quit (Spec.decode (keys e))).
Proof.
  intros Hrun.
  destruct (indexed_session_returns _ _ _ _ _ _ Hrun) as (st & out & Hp).
  destruct (indexed_session_exited fos e duration s st out Hp)
    as (framerate & s2 & Hf & Hs2 & Heq).
  rewrite Hrun in Heq.
  destruct (indexed_loop _ _ _ _ _ _ _) as [r0 s3] eqn:Hloop.
  apply indexed_loop_records in Hloop as (names & Hr & Hq).
  assert (r0 = Ret b /\ s' = set_tmpdirs (tmpdirs s) s3) as [-> ->].
  { destruct r0; by simplify_eq. }
  exists names. split.
  - assert (H2 : records s s2 []).
    { destruct Hs2 as [->| ->]; split; cbn;
        rewrite ?saved_log_app, ?app_nil_r; cbn; by rewrite ?app_nil_r. }
    exact (records_trans s s2 _ [] names H2 Hr).
  - intros ->. by apply Hq.
Qed.

Lemma seeked_session_records fos e duration s b s' :
  seeked_session fos e duration s = (Ret b, s') ->
  exists names,
    records s s' names
    /\ (b = ByQuit ->
        length names = Spec.saves_until_quit (Spec.decode (keys e))).
Proof.
  unfold seeked_session. rewrite bind_eq. cbn [modify]. rewrite bind_eq.
  set (s0 := set_current_time 0 s).
  destruct (get_framerate_returns fos e s0) as (framerate & s1 & -> & Hs1).
  rewrite bind_eq. unfold lift, divide.
  destruct (Qeq_bool framerate 0); [done|].
  intros (names & Hr & Hq)%seeked_loop_records.
  exists names. split.
  - assert (H1 : records s s1 []).
    { destruct Hs1 as [->| ->]; split; cbn;
        rewrite ?saved_log_app, ?app_nil_r; cbn; by rewrite ?app_nil_r. }
    exact (records_trans s s1 _ [] names H1 Hr).
  - intros ->. by apply Hq.
Qed.

(** ** The positions the sessions reach *)

Lemma indexed_session_bounds fos e duration s :
  let files : gmap Z string := list_to_map (ffmpeg_written e) in
  let total := Z.of_nat (size files) in
  current_frame s = 0 ->
  0 < total ->
  0 <= current_frame (indexed_session fos e duration s).2 <= total - 1.
Proof.
  intros files total Hs Ht.
  destruct (ffmpeg_bulk e) as [st out|] eqn:Hp.
  - destruct (indexed_session_exited fos e duration s st out Hp)
      as (framerate & s2 & Hf & Hs2 & ->).
    set (all_frames := merge_sort Z.le _).
    assert (Hlen : Z.of_nat (length all_frames) = total).
    { unfold all_frames, total.
      by rewrite merge_sort_Permutation, length_fmap, length_map_to_list. }
    assert (H2 : 0 <= current_frame s2 <= Z.of_nat (length all_frames) - 1).
    { assert (current_frame s2 = 0) as -> by by destruct Hs2 as [->| ->].
      lia. }
    pose proof (indexed_loop_bounds e duration framerate
                  (fresh (dom (tmpdirs s))) all_frames (keys e) s2 H2) as Hb.
    rewrite Hlen in Hb.
    by destruct (indexed_loop _ _ _ _ _ _ _) as [[| |] s3].
  - assert (current_frame (indexed_session fos e duration s).2
            = current_frame s) as ->; [|lia].
    unfold indexed_session, try_finally. rewrite bind_eq.
    cbn [print modify]. rewrite bind_eq, extract_all_frames_eq, Hp.
    cbv beta iota zeta. rewrite bind_eq. cbn [gets].
    destruct (temp_dir _) as [dir|]; [|done].
    unfold rmtree. by destruct (_ !! dir).
Qed.

Lemma seeked_session_bounds fos e duration s :
  (0 < duration)%Q ->
  (forall framerate s1,
     get_framerate fos e (set_current_time 0 s) = (Ret framerate, s1) ->
     (0 < framerate)%Q) ->
  (0 <= current_time (seeked_session fos e duration s).2 < duration)%Q.
Proof.
  intros Hd Hpos. unfold seeked_session.
  rewrite bind_eq. cbn [modify]. rewrite bind_eq.
  destruct (get_framerate_returns fos e (set_current_time 0 s))
    as (framerate & s1 & Hf & Hs1).
  specialize (Hpos framerate s1 Hf). rewrite Hf, bind_eq.
  unfold lift, divide.
  destruct (Qeq_bool framerate 0) eqn:E.
  { apply Qeq_bool_iff in E. rewrite E in Hpos. by apply Qlt_irrefl in Hpos. }
  apply seeked_loop_bounds; [by apply frame_duration_pos|].
  assert (current_time s1 = 0%Q) as -> by by destruct Hs1 as [->| ->].
  split; [apply Qle_refl|done].
Qed.

(** ** Binary64 rounding

    [B64.exponent] is the binary exponent of its argument, [B64.round]
    does not depend on the fraction that represents its argument, and it
    moves a number by half a unit in the last place at most. *)

Lemma pow2_pos e : (0 < 2 ^ e)%Q.
Proof. by apply Qpower_0_lt. Qed.

Lemma pow2_succ e : (2 ^ (e + 1) == 2 * 2 ^ e)%Q.
Proof. rewrite Qpower_plus by done. rewrite Qpower_1_r. ring. Qed.

Lemma pow2_Z k : 0 <= k -> (inject_Z (2 ^ k) == 2 ^ k)%Q.
Proof. intros Hk. by rewrite Zpower_Qpower. Qed.

Lemma two_neq_0 : ~ (2 == 0)%Q.
Proof. done. Qed.

Lemma pow2_neq_0 e : ~ (2 ^ e == 0)%Q.
Proof. apply Qpower_not_0, two_neq_0. Qed.

(** A quotient of integers between the quotients of powers of two that
    bracket them. *)
Lemma bracket_quotient (P R A B N D q : Q) :
  (q * D == N)%Q -> (P * (2 * B) == A)%Q -> (R * B == 2 * A)%Q ->
  (0 < P)%Q -> (0 < R)%Q -> (A <= N)%Q -> (N < 2 * A)%Q ->
  (B <= D)%Q -> (D < 2 * B)%Q -> (0 < D)%Q -> (0 < B)%Q ->
  (P <= q < R)%Q.
Proof.
  intros Hq HP HR HpP HpR Ha1 Ha2 Hb1 Hb2 Hd Hb. split.
  - apply Qnot_lt_le. intros Hlt.
    assert (q * D < P * D)%Q by (apply Qmult_lt_r; done).
    assert (P * D < P * (2 * B))%Q by (apply Qmult_lt_l; done).
    lra.
  - apply Qnot_le_lt. intros Hle.
    assert (R * D <= q * D)%Q by (apply Qmult_le_compat_r; lra).
    assert (R * B <= R * D)%Q by (apply Qmult_le_l; done).
    lra.
Qed.

Lemma exponent_spec x :
  (0 < x)%Q ->
  (2 ^ B64.exponent x <= x < 2 ^ (B64.exponent x + 1))%Q.
Proof.
  intros Hx. unfold B64.exponent. destruct x as [n d].
  assert (Hn : 0 < n) by (unfold Qlt in Hx; cbn in Hx; lia).
  cbn [Qnum Qden].
  set (a := Z.log2 n). set (b := Z.log2 (Z.pos d)).
  assert (Ha : 2 ^ a <= n < 2 ^ (a + 1)).
  { pose proof (Z.log2_spec n Hn). by rewrite <- Z.add_1_r in H. }
  assert (Hb : 2 ^ b <= Z.pos d < 2 ^ (b + 1)).
  { pose proof (Z.log2_spec (Z.pos d) ltac:(lia)).
    by rewrite <- Z.add_1_r in H. }
  assert (Ha0 : 0 <= a) by apply Z.log2_nonneg.
  assert (Hb0 : 0 <= b) by apply Z.log2_nonneg.
  assert (Hd : (0 < inject_Z (Z.pos d))%Q) by (rewrite <- (Zlt_Qlt 0); lia).
  assert (Hqa : (2 ^ a <= inject_Z n)%Q /\ (inject_Z n < 2 * 2 ^ a)%Q).
  { rewrite <- pow2_succ, <- !pow2_Z by lia. rewrite <- Zle_Qle, <- Zlt_Qlt.
    lia. }
  assert (Hqb : (2 ^ b <= inject_Z (Z.pos d))%Q
                /\ (inject_Z (Z.pos d) < 2 * 2 ^ b)%Q).
  { rewrite <- pow2_succ, <- !pow2_Z by lia. rewrite <- Zle_Qle, <- Zlt_Qlt.
    lia. }
  pose proof (pow2_neq_0 b) as Hb'.
  assert (Hab : (2 ^ (a - b) == 2 ^ a / 2 ^ b)%Q)
    by apply Qpower_minus, two_neq_0.
  assert (Hbr : (2 ^ (a - b - 1) <= n # d < 2 ^ (a - b + 1))%Q).
  { destruct Hqa as [Hqa1 Hqa2], Hqb as [Hqb1 Hqb2].
    apply (bracket_quotient _ _ (2 ^ a) (2 ^ b) (inject_Z n)
             (inject_Z (Z.pos d))); try done.
    - rewrite (Qmake_Qdiv n d). field.
      intros H0. rewrite H0 in Hd. by apply Qlt_irrefl in Hd.
    - rewrite (Qpower_minus 2 (a - b) 1 two_neq_0), Hab, Qpower_1_r.
      by field.
    - rewrite pow2_succ, Hab. by field.
    - apply pow2_pos.
    - apply pow2_pos.
    - apply pow2_pos. }
  destruct (Py.Qltb _ _) eqn:E.
  - apply Qltb_lt in E. replace (a - b - 1 + 1) with (a - b) by lia.
    destruct Hbr. by split.
  - apply Qltb_ge in E. destruct Hbr. by split.
Qed.

Lemma exponent_unique x e :
  (2 ^ e <= x < 2 ^ (e + 1))%Q -> B64.exponent x = e.
Proof.
  intros [Hlo Hhi].
  assert (Hx : (0 < x)%Q).
  { apply Qlt_le_trans with (2 ^ e)%Q; [apply pow2_pos|done]. }
  destruct (exponent_spec x Hx) as [Hlo' Hhi'].
  assert (H1 : B64.exponent x < e + 1).
  { apply (Qpower_lt_compat_l_inv 2); [|done].
    by apply Qle_lt_trans with x. }
  assert (H2 : e < B64.exponent x + 1).
  { apply (Qpower_lt_compat_l_inv 2); [|done].
    by apply Qle_lt_trans with x. }
  lia.
Qed.

Lemma exponent_comp x y : (0 < x)%Q -> (x == y)%Q ->
  B64.exponent x = B64.exponent y.
Proof.
  intros Hx Hxy. symmetry. apply exponent_unique. rewrite <- Hxy.
  by apply exponent_spec.
Qed.

Lemma Qabs_pos_lt x : ~ (x == 0)%Q -> (0 < Qabs x)%Q.
Proof.
  intros Hx. pose proof (Qabs_nonneg x) as H.
  apply Qle_lteq in H as [H|H]; [done|].
  symmetry in H. destruct Hx. revert H. apply Qabs_case; intros; lra.
Qed.

Lemma ulp_pos x : (0 < B64.ulp x)%Q.
Proof. apply pow2_pos. Qed.

Lemma ulp_comp x y : ~ (x == 0)%Q -> (x == y)%Q -> B64.ulp x = B64.ulp y.
Proof.
  intros Hx Hxy. unfold B64.ulp. f_equal. f_equal. f_equal.
  apply exponent_comp; [|by rewrite Hxy].
  by apply Qabs_pos_lt.
Qed.

(** The integer strictly within a half of [x] is its rounding. *)
Lemma round_half_even_unique x z :
  (inject_Z z - (1 # 2) < x < inject_Z z + (1 # 2))%Q ->
  Py.round_half_even x = z.
Proof.
  destruct x as [n d]. unfold Qlt, Py.round_half_even.
  cbn [Qnum Qden Qplus Qminus Qopp inject_Z]. intros [H1 H2].
  pose proof (Z.div_mod n (Z.pos d) ltac:(lia)) as Hdm.
  pose proof (Z.mod_pos_bound n (Z.pos d) ltac:(lia)) as Hr.
  set (f := n / Z.pos d) in *. set (r := n mod Z.pos d) in *.
  assert (HD : 0 < Z.pos d) by lia.
  revert H1 H2 Hdm Hr HD. generalize (Z.pos d). intros D H1 H2 Hdm Hr HD.
  assert (Hlo : (2 * z - 1) * D < (2 * f + 2) * D) by lia.
  assert (Hhi : (2 * f) * D < (2 * z + 1) * D) by lia.
  apply Z.mul_lt_mono_pos_r in Hlo, Hhi; [|done..].
  destruct (Z.compare_spec (2 * r) D) as [E|E|E].
  - assert (Hlo' : (2 * z - 1) * D < (2 * f + 1) * D) by lia.
    assert (Hhi' : (2 * f + 1) * D < (2 * z + 1) * D) by lia.
    apply Z.mul_lt_mono_pos_r in Hlo', Hhi'; [|done..]. lia.
  - assert (Hlo' : (2 * z - 1) * D < (2 * f + 1) * D) by lia.
    apply Z.mul_lt_mono_pos_r in Hlo'; [|done]. lia.
  - assert (Hhi' : (2 * f + 1) * D < (2 * z + 1) * D) by lia.
    apply Z.mul_lt_mono_pos_r in Hhi'; [|done]. lia.
Qed.

Lemma round_half_even_tie x z :
  (x == inject_Z z + (1 # 2))%Q ->
  Py.round_half_even x = if Z.even z then z else z + 1.
Proof.
  destruct x as [n d]. unfold Qeq, Py.round_half_even.
  cbn [Qnum Qden Qplus Qminus Qopp inject_Z]. intros H1.
  pose proof (Z.div_mod n (Z.pos d) ltac:(lia)) as Hdm.
  pose proof (Z.mod_pos_bound n (Z.pos d) ltac:(lia)) as Hr.
  set (f := n / Z.pos d) in *. set (r := n mod Z.pos d) in *.
  assert (HD : 0 < Z.pos d) by lia.
  revert H1 Hdm Hr HD. generalize (Z.pos d). intros D H1 Hdm Hr HD.
  change (Z.pos (1 * 2)) with 2 in H1. clearbody f r.
  assert (Hlo : (2 * z) * D < (2 * f + 2) * D) by lia.
  assert (Hhi : (2 * f) * D <= (2 * z + 1) * D) by lia.
  apply Z.mul_lt_mono_pos_r in Hlo; [|done].
  apply Z.mul_le_mono_pos_r in Hhi; [|done].
  assert (f = z) by lia. subst z.
  destruct (Z.compare_spec (2 * r) D); [done|lia..].
Qed.

(** [round_half_even] does not depend on the fraction that represents
    its argument. *)
Lemma round_half_even_comp x y :
  (x == y)%Q -> Py.round_half_even x = Py.round_half_even y.
Proof.
  intros Hxy.
  pose proof (round_half_even_near y) as Hn.
  set (z := Py.round_half_even y) in *.
  apply Qabs_Qle_condition in Hn as [Hn1 Hn2].
  destruct (Qlt_le_dec (inject_Z z - (1 # 2)) y) as [Hlo|Hlo];
    [destruct (Qlt_le_dec y (inject_Z z + (1 # 2))) as [Hhi|Hhi]|].
  - apply round_half_even_unique. rewrite Hxy. by split.
  - assert (Ht : (y == inject_Z z + (1 # 2))%Q).
    { revert Hn2 Hhi. generalize (inject_Z z). intros q Hn2 Hhi.
      apply Qle_antisym; lra. }
    pose proof (round_half_even_tie y z Ht) as Hy. fold z in Hy.
    rewrite (round_half_even_tie x z) by by rewrite Hxy.
    done.
  - assert (Ht : (y == inject_Z (z - 1) + (1 # 2))%Q).
    { unfold Z.sub. rewrite inject_Z_plus, inject_Z_opp.
      change (inject_Z 1) with 1%Q.
      revert Hn1 Hlo. generalize (inject_Z z). intros q Hn1 Hlo.
      apply Qle_antisym; lra. }
    pose proof (round_half_even_tie y (z - 1) Ht) as Hy. fold z in Hy.
    rewrite (round_half_even_tie x (z - 1)) by by rewrite Hxy.
    done.
Qed.

Lemma round_comp x y : (x == y)%Q -> (B64.round x == B64.round y)%Q.
Proof.
  intros Hxy. unfold B64.round.
  destruct (Qeq_bool x 0) eqn:Ex.
  - apply Qeq_bool_iff in Ex.
    assert (Ey : Qeq_bool y 0 = true)
      by (apply Qeq_bool_iff; by rewrite <- Hxy).
    by rewrite Ey.
  - apply Qeq_bool_neq in Ex.
    assert (Ey : Qeq_bool y 0 = false).
    { destruct (Qeq_bool y 0) eqn:E; [|done].
      apply Qeq_bool_iff in E. destruct Ex. by rewrite Hxy. }
    rewrite Ey, <- (ulp_comp x y Ex Hxy).
    rewrite (round_half_even_comp (x / B64.ulp x) (y / B64.ulp x));
      [done|unfold Qdiv; by apply Qmult_comp].
Qed.

(** The error of one rounding: half a unit in the last place. *)
Lemma round_error x :
  (Qabs (B64.round x - x) <= Qabs x * 2 ^ (-53) + 2 ^ (-1075))%Q.
Proof.
  unfold B64.round. destruct (Qeq_bool x 0) eqn:Ex.
  { apply Qeq_bool_iff in Ex. rewrite Ex.
    pose proof (pow2_pos (-53)). pose proof (pow2_pos (-1075)).
    change (Qabs (0 - 0)) with 0%Q. change (Qabs 0) with 0%Q. lra. }
  apply Qeq_bool_neq in Ex.
  assert (Hx : (0 < Qabs x)%Q) by by apply Qabs_pos_lt.
  pose proof (ulp_pos x) as Hu.
  pose proof (round_half_even_near (x / B64.ulp x)) as Hn.
  set (z := inject_Z (Py.round_half_even (x / B64.ulp x))) in *.
  assert (Hhalf : (Qabs (z * B64.ulp x - x) <= B64.ulp x * (1 # 2))%Q).
  { assert (E : (z * B64.ulp x - x == - (x / B64.ulp x - z) * B64.ulp x)%Q).
    { field. intros H. rewrite H in Hu. by apply Qlt_irrefl in Hu. }
    rewrite E, Qabs_Qmult, Qabs_opp, (Qabs_pos (B64.ulp x)) by lra.
    rewrite (Qmult_comm (B64.ulp x)).
    apply Qmult_le_compat_r; [done|lra]. }
  eapply Qle_trans; [exact Hhalf|].
  unfold B64.ulp.
  destruct (exponent_spec (Qabs x) Hx) as [Hlo _].
  set (e := B64.exponent (Qabs x)) in *.
  pose proof (pow2_pos (-53)). pose proof (pow2_pos (-1075)).
  destruct (Z.max_spec e (-1022)) as [[_ ->]|[_ ->]].
  - assert (E : (2 ^ (-1022 - 52) * (1 # 2) == 2 ^ (-1075))%Q).
    { replace (-1022 - 52) with (-1075 + 1) by lia. rewrite pow2_succ.
      ring. }
    rewrite E. nra.
  - assert (E : (2 ^ (e - 52) * (1 # 2) == 2 ^ e * 2 ^ (-53))%Q).
    { replace (e - 52) with ((e + -53) + 1) by lia.
      rewrite pow2_succ, (Qpower_plus 2 e (-53) two_neq_0). ring. }
    rewrite E. nra.
Qed.

Lemma round_nonneg x : (0 <= x)%Q -> (0 <= B64.round x)%Q.
Proof.
  intros Hx. unfold B64.round. destruct (Qeq_bool x 0); [done|].
  pose proof (ulp_pos x) as Hu.
  apply Qmult_le_0_compat; [|lra].
  change 0%Q with (inject_Z 0). rewrite <- Zle_Qle.
  apply round_half_even_nonneg.
  apply Qle_shift_div_l; [done|]. lra.
Qed.





Lemma Qmult_le_mono_l (a b c : Q) :
  (a <= b)%Q -> (0 <= c)%Q -> (c * a <= c * b)%Q.
Proof.
  intros Hab Hc. rewrite (Qmult_comm c a), (Qmult_comm c b).
  by apply Qmult_le_compat_r.
Qed.

(** Two roundings in a row, of a quotient [q] and of its product with
    [d]: [u] is the relative and [v] the absolute error of one rounding. *)
Lemma two_roundings (q q' r d u v w z : Q) :
  (0 <= q)%Q -> (0 <= q')%Q -> (0 <= d <= 120)%Q ->
  (- (q * u + v) <= q' - q <= q * u + v)%Q ->
  (- (q' * d * u + v) <= r - q' * d <= q' * d * u + v)%Q ->
  (w == 4 * u)%Q -> (0 < u)%Q -> (u < 1)%Q -> (0 < v)%Q ->
  (241 * v <= z)%Q ->
  (- (q * d * w + z) <= r - q * d <= q * d * w + z)%Q.
Proof.
  intros Hq Hq' [Hd0 Hd1] [E1a E1b] [E2a E2b] Hw Hu0 Hu1 Hv0 Hz.
  assert (P1 : (0 <= q * d)%Q) by (apply Qmult_le_0_compat; lra).
  assert (P2 : (0 <= q * d * u)%Q) by (apply Qmult_le_0_compat; lra).
  assert (P3 : (q * d * u * u <= q * d * u * 1)%Q)
    by (apply Qmult_le_mono_l; lra).
  assert (P4 : (v * d <= v * 120)%Q) by (apply Qmult_le_mono_l; lra).
  assert (P5 : (0 <= v * d)%Q) by (apply Qmult_le_0_compat; lra).
  assert (P6 : (v * d * u <= v * d * 1)%Q) by (apply Qmult_le_mono_l; lra).
  assert (B1 : ((q' - q) * d <= (q * u + v) * d)%Q)
    by (apply Qmult_le_compat_r; lra).
  assert (B2 : (- (q * u + v) * d <= (q' - q) * d)%Q)
    by (apply Qmult_le_compat_r; lra).
  assert (B3 : (q' * d * u <= (q + (q * u + v)) * d * u)%Q).
  { apply Qmult_le_compat_r; [|lra]. apply Qmult_le_compat_r; lra. }
  split; nra.
Qed.

(** The value line 125 computes is within [rounding_margin] of the exact
    proportion. *)
Lemma indexed_timestamp_error duration total current :
  0 <= current -> 0 < total -> (0 <= duration <= 120)%Q ->
  let x := indexed_timestamp duration total current in
  (0 <= x)%Q
  /\ (0 <= indexed_timestamp_b64 duration total current)%Q
  /\ (Qabs (indexed_timestamp_b64 duration total current - x)
      <= rounding_margin x)%Q.
Proof.
  intros Hc Ht Hd x. subst x.
  unfold indexed_timestamp, indexed_timestamp_b64, rounding_margin.
  set (q := (inject_Z current / inject_Z total)%Q).
  assert (Hq : (0 <= q)%Q).
  { apply Qle_shift_div_l; [by rewrite <- (Zlt_Qlt 0)|].
    rewrite Qmult_0_l. by rewrite <- (Zle_Qle 0). }
  pose proof (round_error q) as E1.
  pose proof (round_nonneg q Hq) as N1.
  rewrite (Qabs_pos q) in E1 by done.
  set (q' := B64.round q) in *.
  assert (Hy : (0 <= q' * duration)%Q)
    by (apply Qmult_le_0_compat; [done|apply Hd]).
  pose proof (round_error (q' * duration)) as E2.
  pose proof (round_nonneg (q' * duration) Hy) as N2.
  rewrite (Qabs_pos (q' * duration)) in E2 by done.
  set (r := B64.round (q' * duration)) in *.
  assert (Hu : (2 ^ (-51) == 4 * 2 ^ (-53))%Q).
  { change (-51) with (-53 + 1 + 1). rewrite !pow2_succ. ring. }
  assert (Hu1 : (2 ^ (-53) < 1)%Q).
  { change 1%Q with (2 ^ 0)%Q. by apply Qpower_lt_compat_l. }
  assert (Hv : (241 * 2 ^ (-1075) <= 2 ^ (-1000))%Q).
  { change (-1000) with (75 + -1075).
    rewrite (Qpower_plus 2 75 (-1075) two_neq_0).
    apply Qmult_le_compat_r; [|apply Qlt_le_weak, pow2_pos].
    by vm_compute. }
  pose proof (pow2_pos (-53)) as Hu0. pose proof (pow2_pos (-1075)) as Hv0.
  apply Qabs_Qle_condition in E1, E2.
  split; [apply Qmult_le_0_compat; [done|apply Hd]|]. split; [done|].
  apply Qabs_Qle_condition.
  by apply (two_roundings q q' r duration (2 ^ (-53)) (2 ^ (-1075))).
Qed.

(** Within [rounding_margin] of a timestamp that is clear of ties the
    file name is the same. *)
Lemma frame_filename_near x t :
  (0 <= x)%Q -> (0 <= t)%Q ->
  clear_of_ties x = true ->
  (Qabs (t - x) <= rounding_margin x)%Q ->
  frame_filename t = frame_filename x.
Proof.
  intros Hx Ht Hc Hn. unfold frame_filename, Py.format_3f.
  rewrite (proj2 (Qltb_ge t 0) Ht), (proj2 (Qltb_ge x 0) Hx).
  rewrite (round_half_even_comp (Qabs t * 1000) (t * 1000))
    by by rewrite Qabs_pos.
  rewrite (round_half_even_comp (Qabs x * 1000) (x * 1000))
    by by rewrite Qabs_pos.
  unfold clear_of_ties in Hc. cbn zeta in Hc.
  apply andb_true_iff in Hc as [H1%Qltb_lt H2%Qltb_lt].
  rewrite (round_half_even_unique (t * 1000)
             (Py.round_half_even (x * 1000))); [done|].
  apply Qabs_Qle_condition in Hn as [Hn1 Hn2].
  revert H1 H2 Hn1 Hn2.
  generalize (rounding_margin x) (inject_Z (Py.round_half_even (x * 1000))).
  intros m z H1 H2 Hn1 Hn2. split; lra.
Qed.

Lemma indexed_name_b64 duration total current :
  0 <= current -> 0 < total -> (0 <= duration <= 120)%Q ->
  clear_of_ties (indexed_timestamp duration total current) = true ->
  frame_filename (indexed_timestamp duration total current)
  = frame_filename (indexed_timestamp_b64 duration total current).
Proof.
  intros Hc Ht Hd Hties.
  destruct (indexed_timestamp_error duration total current Hc Ht Hd)
    as (Hx & Hb & He).
  symmetry. by apply frame_filename_near.
Qed.



(** Two runs in which rounding decides.  In a clip of 60 s with 192
    frames the proportion of frame 25 is the tie 7.8125: the value
    computed lies above it.  With frames of 0.1 s and a duration of
    120.3 s, three steps from 120 s reach 120.3 in binary64 arithmetic,
    where exact sums stop at 120.2, the third exceeding the duration. *)
Example rounding_decides :
  frame_filename (indexed_timestamp_b64 60 192 25) = "frame_7.813.png"
  /\ frame_filename (indexed_timestamp 60 192 25) = "frame_7.812.png"
  /\ (let fd := B64.round (1 # 10) in
      let d := B64.round (1203 # 10) in
      let steps := [StepForward; StepForward; StepForward; Save] in
      (seeked_replay fd d steps 120).2 = ["frame_120.300.png"]
      /\ frame_filename (Nat.iter 3 (seeked_nav fd d StepForward) 120%Q)
         = "frame_120.200.png"
      /\ exact_run fd d steps 120 = false).
Proof. vm_compute. repeat split; reflexivity. Qed.

(** * The claims *)

(** C1. Navigation keeps the position within bounds.  In the indexed loop
    every keystroke maps an index of [0, total_frames - 1] to an index of
    that range, so the index is in range in every state the loop reaches;
    in the seeked loop, with a positive frame rate, every keystroke maps a
    timestamp of [0, duration) to a timestamp of that range, so the
    timestamp is in range in every state the loop reaches; and pressing
    [,] any number of times at position 0 leaves the position exactly 0,
    for the transition functions and for the loops run on those keys.
    The sessions start their loops at position 0, so the same bounds hold
    in every state a session reaches, when at least one frame was
    extracted and, for the seeked session, the probed frame rate is
    positive. *)
Theorem navigation_stays_in_bounds :
  (forall framerate total ev current,
     0 <= current <= total - 1 ->
     0 <= indexed_nav framerate total ev current <= total - 1)
  /\ (forall e duration framerate dir all_frames ins s,
        0 <= current_frame s <= Z.of_nat (length all_frames) - 1 ->
        0 <= current_frame
               (indexed_loop e duration framerate dir all_frames ins s).2
          <= Z.of_nat (length all_frames) - 1)
  /\ (forall framerate duration ev t,
        (0 < framerate)%Q -> (0 <= t < duration)%Q ->
        (0 <= seeked_nav (1 / framerate) duration ev t < duration)%Q)
  /\ (forall e framerate duration ins s,
        (0 < framerate)%Q -> (0 <= current_time s < duration)%Q ->
        (0 <= current_time (seeked_loop e duration (1 / framerate) ins s).2
         < duration)%Q)
  /\ (forall framerate total n,
        Nat.iter n (indexed_nav framerate total StepBack) 0 = 0)
  /\ (forall framerate duration n,
        (0 < framerate)%Q ->
        Nat.iter n (seeked_nav (1 / framerate) duration StepBack) 0%Q = 0%Q)
  /\ (forall e duration framerate dir all_frames n s,
        current_frame s = 0 ->
        current_frame (indexed_loop e duration framerate dir all_frames
                         (replicate n (Key ",")) s).2 = 0)
  /\ (forall e framerate duration n s,
        (0 < framerate)%Q ->
        current_time s = 0%Q ->
        current_time (seeked_loop e duration (1 / framerate)
                        (replicate n (Key ",")) s).2 = 0%Q)
  /\ (forall fos e duration s,
        let files : gmap Z string := list_to_map (ffmpeg_written e) in
        current_frame s = 0 ->
        0 < Z.of_nat (size files) ->
        0 <= current_frame (indexed_session fos e duration s).2
          <= Z.of_nat (size files) - 1)
  /\ (forall fos e duration s,
        (0 < duration)%Q ->
        (forall framerate s1,
           get_framerate fos e (set_current_time 0 s) = (Ret framerate, s1) ->
           (0 < framerate)%Q) ->
        (0 <= current_time (seeked_session fos e duration s).2
         < duration)%Q).
Proof.
  split; [|split; [|split; [|split; [|split; [|split; [|split; [|split;
    [|split]]]]]]]].
  10: by apply seeked_session_bounds.
  9: by apply indexed_session_bounds.
  all: repeat split.
  - by apply indexed_nav_bounds.
  - by apply indexed_nav_bounds.
  - by apply indexed_loop_bounds.
  - by apply indexed_loop_bounds.
  - apply seeked_nav_bounds; [by apply frame_duration_pos|done].
  - apply seeked_nav_bounds; [by apply frame_duration_pos|done].
  - apply seeked_loop_bounds; [by apply frame_duration_pos|done].
  - apply seeked_loop_bounds; [by apply frame_duration_pos|done].
  - intros. apply indexed_back_at_0.
  - intros. apply seeked_back_at_0. by apply frame_duration_pos.
  - intros. by apply indexed_loop_back_at_0.
  - intros. apply seeked_loop_back_at_0; [by apply frame_duration_pos|done].
Qed.

Lemma navigation_stays_in_bounds_witness :
  0 <= indexed_nav 30 900 JumpForward 895 <= 900 - 1
  /\ (0 <= seeked_nav (1 / 30) 600 StepForward (59999 # 100) < 600)%Q.
Proof.
  destruct navigation_stays_in_bounds as (Hi & _ & Hs & _).
  split.
  - apply Hi. lia.
  - apply Hs; [reflexivity|]. split; [discriminate|reflexivity].
Defined.

(** C2, as the specification states it, fails at 30 frames per second:
    the specification rounds 7.5 to 8 frames, the script moves 7. *)
Lemma jump_rounds_counterexample :
  indexed_nav 30 900 JumpForward 0
  <> Z.min (900 - 1) (0 + Spec.jump_frames 30 (1 # 4)).
Proof. vm_compute. discriminate. Qed.

(** C2, amended.  In the indexed loop the arrows move the frame index by
    [max(1, int(framerate * 0.25))] frames, the product truncated toward
    zero and not rounded, clamped to [0, total_frames - 1]; with 30 frames
    per second and 900 frames the right arrow advances the index by 7,
    clamped at 899. *)
Theorem jump_moves_by_truncated_quarter_second :
  (forall framerate,
     frames_to_move framerate = Z.max 1 (Py.int (framerate * (1 # 4))))
  /\ (forall x, (0 <= x)%Q -> Py.int x = Qfloor x)
  /\ (forall x, (x <= 0)%Q -> Py.int x = Qceiling x)
  /\ (forall framerate total current,
        indexed_nav framerate total JumpForward current
        = Z.min (total - 1) (current + frames_to_move framerate)
        /\ indexed_nav framerate total JumpBack current
           = Z.max 0 (current - frames_to_move framerate))
  /\ (forall e duration framerate dir all_frames ins s,
        0 <= current_frame s <= Z.of_nat (length all_frames) - 1 ->
        (forall f, viu e f <> NotStarted) ->
        indexed_loop e duration framerate dir all_frames
          (Key esc :: Key "[" :: Key "C" :: ins) s
        = indexed_loop e duration framerate dir all_frames ins
            (set_current_frame
               (indexed_nav framerate (Z.of_nat (length all_frames))
                            JumpForward (current_frame s))
               (printed (LCurrentFrame (current_frame s + 1)
                                       (Z.of_nat (length all_frames))) s))
        /\ indexed_loop e duration framerate dir all_frames
             (Key esc :: Key "[" :: Key "D" :: ins) s
           = indexed_loop e duration framerate dir all_frames ins
               (set_current_frame
                  (indexed_nav framerate (Z.of_nat (length all_frames))
                               JumpBack (current_frame s))
                  (printed (LCurrentFrame (current_frame s + 1)
                                          (Z.of_nat (length all_frames))) s)))
  /\ frames_to_move 30 = 7
  /\ indexed_nav 30 900 JumpForward 0 = 7
  /\ indexed_nav 30 900 JumpForward 895 = 899.
Proof.
  split; [|split; [|split; [|split; [|split; [|done]]]]].
  - intros. unfold frames_to_move. apply maxZ_max.
  - apply int_nonneg.
  - apply int_nonpos.
  - intros. cbn [indexed_nav]. unfold indexed_right, indexed_left.
    by rewrite minZ_min, maxZ_max.
  - intros e duration framerate dir all_frames ins s Hb Hviu.
    split; by apply indexed_loop_key.
Qed.

Lemma jump_moves_by_truncated_quarter_second_witness :
  Py.int (15 # 2) = Qfloor (15 # 2).
Proof.
  destruct jump_moves_by_truncated_quarter_second as (_ & H & _).
  apply H. discriminate.
Defined.




(** C4. When the script ends by [q], the report it prints last gives as
    count the number of Save events among the keystrokes processed up to
    that [q], and as names the names of the saves in the order in which
    the "Saved ..." lines were printed. *)
Theorem quit_report_lists_saves fos e files dirs s' :
  main fos e (initial files dirs) = (Ret ByQuit, s') ->
  exists out,
    stdout s'
    = out ++ LSummary (length (saved_frames s'))
          :: map LName (saved_frames s')
    /\ length (saved_frames s')
       = Spec.saves_until_quit (Spec.decode (keys e))
    /\ saved_frames s' = saved_log out.
Proof.
  unfold main. destruct (_ <? _)%nat; [done|].
  rewrite bind_eq. cbn [print modify].
  fold (printed LControls (initial files dirs)).
  rewrite bind_eq, get_duration_eq.
  set (s0 := printed LControls (initial files dirs)).
  assert (H0 : records (initial files dirs) s0 [])
    by by apply (records_printed LControls).
  assert (Hsession : forall d,
    (b ← match select_strategy d with
         | Indexed => indexed_session fos e d
         | Seeked => seeked_session fos e d
         end; report;; mret b) s0 = (Ret ByQuit, s') ->
    exists out,
      stdout s' = out ++ LSummary (length (saved_frames s'))
                    :: map LName (saved_frames s')
      /\ length (saved_frames s')
         = Spec.saves_until_quit (Spec.decode (keys e))
      /\ saved_frames s' = saved_log out).
  { intros d. rewrite bind_eq.
    destruct (match select_strategy d with
              | Indexed => indexed_session fos e d
              | Seeked => seeked_session fos e d
              end s0) as [[b| |] s1] eqn:Hrun; [|done..].
    assert (exists names, records s0 s1 names
              /\ (b = ByQuit ->
                  length names
                  = Spec.saves_until_quit (Spec.decode (keys e))))
      as (names & Hr & Hq).
    { destruct (select_strategy d);
        [by eapply indexed_session_records|by eapply seeked_session_records]. }
    destruct (records_trans _ _ _ [] names H0 Hr) as [Hsaved Hlog].
    cbn in Hsaved, Hlog.
    unfold report. rewrite !bind_eq. cbn.
    intros [= -> <-]. cbn.
    exists (stdout s1). split; [|split].
    - by rewrite <- app_assoc.
    - rewrite Hsaved. by apply Hq.
    - by rewrite Hsaved, Hlog.
  }
  destruct (ffprobe_duration e) as [st out|]; [|done].
  destruct (st =? 0); [|done].
  destruct (fos _) as [d|]; [|done].
  apply Hsession.
Qed.

Lemma quit_report_lists_saves_witness :
  let e := clip 0 [(0, "a"); (10, "b"); (50, "c")]
             [Key "s"; Key esc; Key "s"; Key "q"; Key "."; Key "s";
              Key "s"; Key "q"; Key "s"] in
  exists s' out,
    main Decimal.parse e (initial ∅ ∅) = (Ret ByQuit, s')
    /\ stdout s'
       = out ++ LSummary (length (saved_frames s'))
             :: map LName (saved_frames s')
    /\ length (saved_frames s') = 3%nat.
Proof.
  intros e. eexists.
  assert (Hrun : main Decimal.parse e (initial ∅ ∅)
                 = (Ret ByQuit, (main Decimal.parse e (initial ∅ ∅)).2))
    by (vm_compute; reflexivity).
  destruct (quit_report_lists_saves Decimal.parse e ∅ ∅ _ Hrun)
    as (out & Hout & Hlen & _).
  exists out. split; [exact Hrun|]. split; [exact Hout|exact Hlen].
Defined.

(** C5. [get_framerate] always returns a number: no exception, no exit
    leaves it.  The output of the probe, stripped, is read as a ratio
    [N/D], giving [N/D], or as one plain number; a probe that could not be
    run or exited with an error, an empty output, and an output with a
    part that is not a number give the default 30.  The output
    ["30000/1001"] gives 30000/1001, between 29.97 and 29.98. *)
Theorem get_framerate_parses_or_defaults :
  (forall fos e s, exists q s', get_framerate fos e s = (Ret q, s'))
  /\ (forall fos e s,
        (forall out, ffprobe_framerate e <> Exited 0 out) ->
        get_framerate fos e s = (Ret 30%Q, printed LErrFramerate s))
  /\ (forall fos e s out,
        ffprobe_framerate e = Exited 0 out ->
        (Py.strip out = "" -> get_framerate fos e s = (Ret 30%Q, s))
        /\ (forall n d a b,
              Py.strip out = n +:+ String "/" d ->
              Py.contains "/" n = false -> Py.contains "/" d = false ->
              fos n = Some a -> fos d = Some b -> ~ (b == 0)%Q ->
              get_framerate fos e s = (Ret (a / b)%Q, s))
        /\ (forall x,
              Py.strip out <> "" ->
              Py.contains "/" (Py.strip out) = false ->
              fos (Py.strip out) = Some x ->
              get_framerate fos e s = (Ret x, s))
        /\ (Py.strip out <> "" ->
            fos (Py.strip out) = None ->
            (exists part,
               part ∈ Py.split "/" (Py.strip out) /\ fos part = None) ->
            get_framerate fos e s = (Ret 30%Q, printed LErrFramerate s)))
  /\ (forall e s,
        ffprobe_framerate e = Exited 0 ("30000/1001" +:+ nl) ->
        exists q,
          get_framerate Decimal.parse e s = (Ret q, s)
          /\ (q == 30000 # 1001)%Q
          /\ (2997 # 100 < q < 2998 # 100)%Q).
Proof.
  split; [|split; [|split]].
  - intros fos e s.
    destruct (get_framerate_returns fos e s) as (q & s' & H & _). eauto.
  - intros. by apply get_framerate_probe_failed.
  - intros fos e s out Hp.
    rewrite (get_framerate_output fos e s out Hp). cbn zeta.
    split; [|split; [|split]].
    + intros ->. done.
    + intros n d a b Hfr Hn Hd Ha Hb Hb0. rewrite Hfr.
      case_decide as Hne; [by destruct n|].
      rewrite (split_sep "/" n d Hn), (split_no_sep "/" d Hd).
      rewrite (unpack2_pair fos n d a b Ha Hb).
      destruct (Qeq_bool b 0) eqn:E; [|done].
      by apply Qeq_bool_iff in E.
    + intros x Hne Hc Hx. case_decide; [done|].
      rewrite (split_no_sep "/" _ Hc), unpack2_single. by rewrite Hx.
    + intros Hne Hnone Hpart. case_decide; [done|].
      rewrite (unpack2_fails fos _ Hpart). by rewrite Hnone.
  - intros e s Hp. eexists.
    rewrite (get_framerate_output Decimal.parse e s _ Hp).
    split; [vm_compute; reflexivity|]. split; [reflexivity|].
    split; reflexivity.
Qed.

Lemma get_framerate_parses_or_defaults_witness :
  get_framerate Decimal.parse
    (mkEnv [] NotStarted (Exited 0 ("N/A" +:+ nl)) NotStarted []
           (fun _ => NotStarted) (fun _ => NotStarted) [])
    (initial ∅ ∅)
  = (Ret 30%Q, printed LErrFramerate (initial ∅ ∅)).
Proof.
  destruct get_framerate_parses_or_defaults as (_ & _ & H & _).
  eapply H; [reflexivity|discriminate|reflexivity|].
  exists "N". split; [|reflexivity].
  vm_compute. constructor.
Defined.

(** C6. Once the extraction has returned, so that the session reaches its
    loop, the temporary directory holds the extracted files for as long as
    the loop runs and is deleted when the session ends, however the loop
    was left: by [q], by the out-of-range branch, or by an exception.  The
    temporary directories are then those that existed before the
    session. *)
Theorem temp_dir_removed_on_every_exit fos e duration s st out r s' :
  ffmpeg_bulk e = Exited st out ->
  indexed_session fos e duration s = (r, s') ->
  r <> Block ->
  let d := fresh (dom (tmpdirs s)) in
  let files : gmap Z string := list_to_map (ffmpeg_written e) in
  (exists framerate s2 s3,
     tmpdirs s2 = <[d := files]> (tmpdirs s)
     /\ indexed_loop e duration framerate d
          (merge_sort Z.le (map_to_list files).*1) (keys e) s2
        = (r, s3)
     /\ tmpdirs s3 = <[d := files]> (tmpdirs s))
  /\ tmpdirs s' = tmpdirs s
  /\ (d ∉ dom (tmpdirs s'))
  /\ (r = Ret ByQuit \/ r = Ret ByOutOfRange \/ (exists x, r = Raise x)).
Proof.
  intros Hp Hrun Hr d files.
  destruct (indexed_session_exited fos e duration s st out Hp)
    as (framerate & s2 & Hf & Hs2 & Heq).
  fold d files in Hs2, Heq. rewrite Hrun in Heq.
  assert (Ht2 : tmpdirs s2 = <[d := files]> (tmpdirs s))
    by by destruct Hs2 as [->| ->].
  pose proof (indexed_loop_frame e duration framerate d
                (merge_sort Z.le (map_to_list files).*1) (keys e) s2)
    as [Ht _].
  destruct (indexed_loop _ _ _ _ _ _ _) as [r0 s3] eqn:Hloop.
  cbn [snd] in Ht.
  assert (r0 = r /\ s' = set_tmpdirs (tmpdirs s) s3) as [-> ->].
  { destruct r0; injection Heq as -> ->; [by split..|by destruct Hr]. }
  split; [|split; [|split]].
  - exists framerate, s2, s3. by rewrite Ht.
  - done.
  - cbn. apply is_fresh.
  - destruct r as [[]|x|]; eauto. done.
Qed.

Lemma temp_dir_removed_on_every_exit_witness :
  let leaves ks written :=
    tmpdirs (indexed_session Decimal.parse (clip 0 written ks) 60
               (initial ∅ ∅)).2 = ∅ in
  leaves [Key "s"; Key "q"] [(0, "a"); (1, "b")]
  /\ leaves [Key "q"] []
  /\ leaves [Key "."; Fail OSError] [(0, "a"); (1, "b")].
Proof.
  intros leaves. unfold leaves.
  split; [|split].
  - eapply (temp_dir_removed_on_every_exit Decimal.parse
              (clip 0 [(0, "a"); (1, "b")] [Key "s"; Key "q"]) 60
              (initial ∅ ∅) 0 "" (Ret ByQuit));
      [reflexivity|vm_compute; reflexivity|discriminate].
  - eapply (temp_dir_removed_on_every_exit Decimal.parse
              (clip 0 [] [Key "q"]) 60
              (initial ∅ ∅) 0 "" (Ret ByOutOfRange));
      [reflexivity|vm_compute; reflexivity|discriminate].
  - eapply (temp_dir_removed_on_every_exit Decimal.parse
              (clip 0 [(0, "a"); (1, "b")] [Key "."; Fail OSError]) 60
              (initial ∅ ∅) 0 "" (Raise OSError));
      [reflexivity|vm_compute; reflexivity|discriminate].
Defined.

(** C7. A save writes the file [frame_<timestamp to three decimals>.png]
    of the working directory, with the image of the frame, and records the
    name; the three decimals are those of the timestamp rounded to the
    nearest thousandth.  Two saves at one timestamp leave the directory
    with the files it had after the first: one file of that name, holding
    the second image, while the name is recorded twice. *)
Theorem save_overwrites_same_timestamp :
  (forall frame t s s1,
     save_frame frame t s = (Ret tt, s1) ->
     exists data,
       frame_content frame s = Some data
       /\ cwd s1 = <[frame_filename t := data]> (cwd s)
       /\ saved_frames s1 = saved_frames s ++ [frame_filename t]
       /\ stdout s1 = stdout s ++ [LSaved (frame_filename t)])
  /\ (forall t,
        let m := Py.round_half_even (Qabs t * 1000) in
        0 <= m
        /\ (Qabs (Qabs t * 1000 - inject_Z m) <= 1 # 2)%Q
        /\ frame_filename t
           = "frame_"
               +:+ ((if Py.Qltb t 0 then "-" else "")
                      +:+ pretty (m / 1000) +:+ "."
                      +:+ three_digits (m mod 1000))
               +:+ ".png")
  /\ (forall frame1 frame2 t s s1 s2,
        save_frame frame1 t s = (Ret tt, s1) ->
        save_frame frame2 t s1 = (Ret tt, s2) ->
        dom (cwd s2) = dom (cwd s1)
        /\ size (cwd s2) = size (cwd s1)
        /\ dom (cwd s2) = {[frame_filename t]} ∪ dom (cwd s)
        /\ (exists data2,
              frame_content frame2 s1 = Some data2
              /\ cwd s2 = <[frame_filename t := data2]> (cwd s))
        /\ saved_frames s2
           = saved_frames s ++ [frame_filename t; frame_filename t]).
Proof.
  split; [|split].
  - intros frame t s s1 (data & Hc & ->)%save_frame_ret.
    exists data. done.
  - intros t m. destruct (format_3f_shape t) as (H0 & Hn & Hf).
    split; [done|]. split; [done|].
    unfold frame_filename. by rewrite Hf.
  - intros frame1 frame2 t s s1 s2
      (data1 & Hc1 & ->)%save_frame_ret (data2 & Hc2 & ->)%save_frame_ret.
    cbn [saved printed cwd set_stdout set_saved_frames set_cwd saved_frames].
    split; [|split; [|split; [|split]]].
    + rewrite insert_insert_eq. by rewrite !dom_insert_L.
    + apply map_size_insert_Some. rewrite lookup_insert_eq. eauto.
    + rewrite insert_insert_eq. by rewrite dom_insert_L.
    + exists data2. split; [done|]. apply insert_insert_eq.
    + by rewrite <- app_assoc.
Qed.

Lemma save_overwrites_same_timestamp_witness :
  let s1 := saved (frame_filename (3 # 2)) "first" (initial ∅ ∅) in
  let s2 := saved (frame_filename (3 # 2)) "second" s1 in
  size (cwd s2) = size (cwd s1)
  /\ saved_frames s2
     = saved_frames (initial ∅ ∅)
         ++ [frame_filename (3 # 2); frame_filename (3 # 2)].
Proof.
  intros s1 s2.
  destruct save_overwrites_same_timestamp as (_ & _ & H).
  destruct (H (Bytes "first") (Bytes "second") (3 # 2)%Q (initial ∅ ∅) s1 s2
              eq_refl eq_refl) as (_ & Hsize & _ & _ & Hsaved).
  split; [exact Hsize|exact Hsaved].
Defined.

(** C8. The script takes the indexed branch exactly when the probed
    duration is at most 120 seconds and the seeked branch exactly when it
    exceeds 120 seconds; [main] runs the session of the selected branch on
    the duration [get_duration] returned. *)
Theorem strategy_by_duration :
  (forall d,
     (select_strategy d = Indexed <-> (d <= 120)%Q)
     /\ (select_strategy d = Seeked <-> (120 < d)%Q))
  /\ (forall fos e s d s1,
        (2 <= length (argv e))%nat ->
        get_duration fos e (printed LControls s) = (Ret d, s1) ->
        ((d <= 120)%Q ->
           main fos e s
           = (b ← indexed_session fos e d; report;; mret b) s1)
        /\ ((120 < d)%Q ->
              main fos e s
              = (b ← seeked_session fos e d; report;; mret b) s1)).
Proof.
  assert (Hsel : forall d,
     (select_strategy d = Indexed <-> (d <= 120)%Q)
     /\ (select_strategy d = Seeked <-> (120 < d)%Q)).
  { intros d. unfold select_strategy.
    destruct (Py.Qleb d 120) eqn:E.
    - apply Qleb_le in E. split; split; try done.
      intros H. by apply Qlt_not_le in H.
    - apply Qleb_gt in E. split; split; try done.
      intros H. by apply Qlt_not_le in E. }
  split; [done|].
  intros fos e s d s1 Hargv Hd.
  rewrite (main_dispatch fos e s d s1 Hargv Hd).
  split; intros H.
  - by rewrite (proj2 (proj1 (Hsel d)) H).
  - by rewrite (proj2 (proj2 (Hsel d)) H).
Qed.

Lemma strategy_by_duration_witness :
  select_strategy 60 = Indexed /\ select_strategy 600 = Seeked.
Proof.
  destruct strategy_by_duration as (H & _).
  split.
  - apply (H 60%Q). discriminate.
  - apply (H 600%Q). reflexivity.
Defined.

(** C9, as stated, fails when the extraction wrote frames before it
    failed: with exit status 1 and one frame in the directory the frame
    list is not empty, and the session runs until [q]. *)
Lemma failed_extraction_counterexample :
  let e := clip 1 [(0, "a")] [Key "q"] in
  let frames := (extract_all_frames e (initial ∅ ∅)).1 in
  let session := (indexed_session Decimal.parse e 60 (initial ∅ ∅)).1 in
  ffmpeg_bulk e = Exited 1 ""
  /\ frames = Ret ("0", [0]) /\ frames <> Ret ("0", [])
  /\ session = Ret ByQuit /\ session <> Ret ByOutOfRange.
Proof. vm_compute. repeat split; (reflexivity || discriminate). Qed.

(** C9, amended.  In [extract_all_frames] the exit status of the bulk
    extraction is ignored: whatever it is, the function returns, prints
    nothing and does not reach the "Error extracting frames" branch, and
    no outcome of the extraction makes it exit.  The frame list is the
    sorted list of the frames found in the directory.  When the extraction
    wrote none, the list is empty, and the indexed loop reports "Frame
    index out of range" and ends the session without reading a key. *)
Theorem failed_extraction_is_not_fatal :
  (forall e s st out,
     ffmpeg_bulk e = Exited st out ->
     let d := fresh (dom (tmpdirs s)) in
     let files : gmap Z string := list_to_map (ffmpeg_written e) in
     exists all_frames,
       extract_all_frames e s
       = (Ret (d, all_frames), set_tmpdirs (<[d := files]> (tmpdirs s)) s)
       /\ Sorted Z.le all_frames
       /\ all_frames ≡ₚ elements (dom files))
  /\ (forall e s,
        (extract_all_frames e s).1 <> Raise (SystemExit 1)
        /\ stdout (extract_all_frames e s).2 = stdout s)
  /\ (forall fos e duration s st out,
        ffmpeg_bulk e = Exited st out ->
        ffmpeg_written e = [] ->
        exists pre s',
          indexed_session fos e duration s = (Ret ByOutOfRange, s')
          /\ stdout s' = stdout s ++ LExtracting :: pre ++ [LOutOfRange]
          /\ (pre = [] \/ pre = [LErrFramerate])
          /\ tmpdirs s' = tmpdirs s).
Proof.
  split; [|split].
  - intros e s st out Hp d files. eexists. split; [|split].
    + rewrite extract_all_frames_eq, Hp. reflexivity.
    + apply Sorted_merge_sort. intros x y. lia.
    + rewrite merge_sort_Permutation, dom_alt.
      symmetry. apply elements_list_to_set, NoDup_fst_map_to_list.
  - intros e s. rewrite extract_all_frames_eq. cbn zeta.
    by destruct (ffmpeg_bulk e).
  - intros fos e duration s st out Hp Hw.
    destruct (indexed_session_exited fos e duration s st out Hp)
      as (framerate & s2 & Hf & Hs2 & ->).
    rewrite Hw in *. rewrite list_to_map_nil, map_to_list_empty in *.
    change (merge_sort Z.le ([] : list (Z * string)).*1) with (@nil Z).
    rewrite out_of_range_at_once.
    destruct Hs2 as [->| ->].
    + exists []. eexists. split; [reflexivity|].
      split; [|by split; [left|]].
      cbn. by rewrite <- app_assoc.
    + exists [LErrFramerate]. eexists. split; [reflexivity|].
      split; [|by split; [right|]].
      cbn. by rewrite <- !app_assoc.
Qed.

Lemma failed_extraction_is_not_fatal_witness :
  exists s',
    indexed_session Decimal.parse (clip 1 [] [Key "q"]) 60 (initial ∅ ∅)
    = (Ret ByOutOfRange, s')
    /\ tmpdirs s' = ∅.
Proof.
  destruct failed_extraction_is_not_fatal as (_ & _ & H).
  destruct (H Decimal.parse (clip 1 [] [Key "q"]) 60%Q (initial ∅ ∅) 1 ""
              eq_refl eq_refl) as (pre & s' & Hrun & _ & _ & Ht).
  exists s'. split; [exact Hrun|exact Ht].
Defined.

(** C10. In the indexed loop [s] saves the current frame under the name
    made from [current_frame / total_frames * duration], the share of the
    list that lies before the frame, as line 125 computes it in binary64
    arithmetic: the number in the name of the extracted file, which is all
    the script keeps of the frame's place in the video, does not enter it.
    The value computed is the exact proportion up to the two roundings,
    and wherever the proportion is clear of the ties of the three
    decimals the name is the one the exact proportion gives.  In a clip
    of 60 s with the three frames 0, 10 and 50, the second frame, frame
    10, is saved as [frame_20.000.png].  At a tie the rounding decides:
    in a clip of 0.5 s with 40 frames the proportion of frame 1 is 0.0125,
    the value computed lies above it, and the name is [frame_0.013.png]
    where the exact proportion would give [frame_0.012.png]. *)
Theorem indexed_save_named_by_proportion :
  (forall e duration framerate dir all_frames ins s n data,
     let total := Z.of_nat (length all_frames) in
     let current := current_frame s in
     0 <= current <= total - 1 ->
     all_frames !! Z.to_nat current = Some n ->
     viu e (Path dir n) <> NotStarted ->
     tmpdirs s !! dir ≫= (.!! n) = Some data ->
     (0 <= duration <= 120)%Q ->
     clear_of_ties (inject_Z current / inject_Z total * duration) = true ->
     indexed_loop e duration framerate dir all_frames (Key "s" :: ins) s
     = indexed_loop e duration framerate dir all_frames ins
         (saved
            (frame_filename (indexed_timestamp_b64 duration total current))
            data
            (printed (LCurrentFrame (current + 1) total) s)))
  /\ (forall duration total current,
        0 <= current -> 0 < total -> (0 <= duration <= 120)%Q ->
        let x := (inject_Z current / inject_Z total * duration)%Q in
        (Qabs (indexed_timestamp_b64 duration total current - x)
         <= x * 2 ^ (-51) + 2 ^ (-1000))%Q
        /\ (clear_of_ties x = true ->
            frame_filename (indexed_timestamp_b64 duration total current)
            = frame_filename x))
  /\ (let e := clip 0 [(0, "a"); (10, "b"); (50, "c")]
                    [Key "."; Key "s"; Key "q"] in
      let s' := (main Decimal.parse e (initial ∅ ∅)).2 in
      saved_frames s' = ["frame_20.000.png"]
      /\ cwd s' = {[ "frame_20.000.png" := "b" ]}
      /\ clear_of_ties (inject_Z 1 / inject_Z 3 * 60) = true
      /\ frame_filename (indexed_timestamp_b64 60 3 1) = "frame_20.000.png")
  /\ (clear_of_ties (inject_Z 1 / inject_Z 40 * (1 # 2)) = false
      /\ frame_filename (indexed_timestamp_b64 (1 # 2) 40 1)
         = "frame_0.013.png"
      /\ frame_filename (inject_Z 1 / inject_Z 40 * (1 # 2))
         = "frame_0.012.png").
Proof.
  split; [|split; [|split]].
  - intros e duration framerate dir all_frames ins s n data total current
      Hb Hn Hviu Hdata Hd Hties.
    rewrite indexed_loop_eq. cbn zeta. fold total current.
    replace (_ && _) with true by (symmetry; apply andb_true_iff; lia).
    rewrite Hn. destruct (viu e _); [|done].
    cbn [read_key]. change (Ascii.eqb "s" "q") with false.
    change (Ascii.eqb "s" "s") with true. cbv iota.
    rewrite save_frame_eq. cbn [printed tmpdirs set_stdout].
    rewrite Hdata.
    by rewrite (indexed_name_b64 duration total current) by (done || lia).
  - intros duration total current Hc Ht Hd x.
    destruct (indexed_timestamp_error duration total current Hc Ht Hd)
      as (Hx & Hb & He).
    split; [exact He|].
    intros Hties. symmetry. by apply indexed_name_b64.
  - vm_compute. repeat split; reflexivity.
  - vm_compute. repeat split; reflexivity.
Qed.

Lemma indexed_save_named_by_proportion_witness :
  let e := clip 0 [] [] in
  let s := set_tmpdirs {[ "d" := {[ 10 := "b" ]} ]}
             (set_current_frame 1 (initial ∅ ∅)) in
  indexed_loop e 60 30 "d" [0; 10; 50] [Key "s"] s
  = indexed_loop e 60 30 "d" [0; 10; 50] []
      (saved (frame_filename (indexed_timestamp_b64 60 3 1)) "b"
         (printed (LCurrentFrame 2 3) s)).
Proof.
  intros e s.
  destruct indexed_save_named_by_proportion as (H & _).
  apply (H e 60%Q 30%Q "d" [0; 10; 50] [] s 10 "b");
    [split; [discriminate|discriminate]|reflexivity|discriminate
    |reflexivity|split; discriminate|vm_compute; reflexivity].
Defined.

(** * Whole runs

    Lemmas on the loops and the sessions read as a whole: what a run does
    to the state, how it ends, and what it leaves outside. *)

Lemma read_key_app ins more :
  match read_key ins with
  | Event ev rest => read_key (ins ++ more) = Event ev (rest ++ more)
  | ReadFails x => read_key (ins ++ more) = ReadFails x
  | NoInput => True
  end.
Proof.
  destruct ins as [|[ch|x] ins1]; [done| |done].
  cbn [read_key app].
  destruct (Ascii.eqb ch "q"); [done|].
  destruct (Ascii.eqb ch "s"); [done|].
  destruct (Ascii.eqb ch "."); [done|].
  destruct (Ascii.eqb ch ","); [done|].
  destruct (Ascii.eqb ch esc); [|done].
  by destruct ins1 as [|[n1|x1] [|[n2|x2] ins3]].
Qed.

Lemma indexed_loop_app e duration framerate dir all_frames ins more :
  forall s,
    (indexed_loop e duration framerate dir all_frames ins s).1 <> Block ->
    indexed_loop e duration framerate dir all_frames (ins ++ more) s
    = indexed_loop e duration framerate dir all_frames ins s.
Proof.
  induction ins as [ins IH] using stimuli_ind. intros s.
  rewrite !indexed_loop_eq. cbn zeta.
  destruct (_ && _); [|done].
  destruct (all_frames !! _) as [n|]; [|done].
  destruct (viu e _); [|done].
  pose proof (read_key_app ins more) as Happ.
  destruct (read_key ins) as [| |ev rest] eqn:Hk; [done|by rewrite Happ|].
  rewrite Happ. apply read_key_shorter in Hk.
  destruct ev; try apply (IH rest Hk).
  - done.
  - destruct (save_frame _ _ _) as [[[]| |] s2]; [|done..].
    apply (IH rest Hk).
Qed.

Lemma seeked_loop_app e duration frame_duration ins more :
  forall s,
    (seeked_loop e duration frame_duration ins s).1 <> Block ->
    seeked_loop e duration frame_duration (ins ++ more) s
    = seeked_loop e duration frame_duration ins s.
Proof.
  induction ins as [ins IH] using stimuli_ind. intros s.
  rewrite !seeked_loop_eq. cbn zeta.
  destruct (ffmpeg_seek e _) as [st frame|]; [|done].
  destruct (st =? 0); [|done].
  destruct (viu e _); [|done].
  pose proof (read_key_app ins more) as Happ.
  destruct (read_key ins) as [| |ev rest] eqn:Hk; [done|by rewrite Happ|].
  rewrite Happ. apply read_key_shorter in Hk.
  destruct ev; try apply (IH rest Hk). done.
Qed.



Lemma effects_same s s' :
  saved_frames s' = saved_frames s -> stdout s' = stdout s ->
  cwd s' = cwd s -> effects s s' [].
Proof.
  intros H1 H2 H3. split; [by rewrite app_nil_r|]. split; [|split].
  - exists []. split; [by rewrite app_nil_r|]. split; [done|].
    intros n Hn. by apply elem_of_nil in Hn.
  - by rewrite H3, list_to_set_nil, (right_id_L ∅ (∪)).
  - intros f _. by rewrite H3.
Qed.

Lemma effects_trans s1 s2 s3 l1 l2 :
  effects s1 s2 l1 -> effects s2 s3 l2 -> effects s1 s3 (l1 ++ l2).
Proof.
  intros (Ha & (o1 & Ho1 & Hl1 & Hn1) & Hd1 & Hf1)
         (Hb & (o2 & Ho2 & Hl2 & Hn2) & Hd2 & Hf2).
  split; [|split; [|split]].
  - by rewrite Hb, Ha, app_assoc.
  - exists (o1 ++ o2). split; [by rewrite Ho2, Ho1, app_assoc|].
    split; [by rewrite saved_log_app, Hl1, Hl2|].
    intros n [?|?]%elem_of_app; [by apply (Hn1 n)|by apply (Hn2 n)].
  - by rewrite Hd2, Hd1, list_to_set_app_L, (assoc_L (∪)).
  - intros f Hf. rewrite Hf2, Hf1; [done|..];
      intros Hin; apply Hf, elem_of_app; auto.
Qed.

Lemma effects_printed l s :
  (forall f, l <> LSaved f) -> (forall n, l <> LSummary n) ->
  effects s (printed l s) [].
Proof.
  intros Hl Hn. split; [by rewrite app_nil_r|]. split; [|split].
  - exists [l]. split; [done|]. split.
    + destruct l as [| | | | | | | | | | |f| |]; try done. by destruct (Hl f).
    + intros n Hin%list_elem_of_singleton. by destruct (Hn n).
  - by rewrite list_to_set_nil, (right_id_L ∅ (∪)).
  - done.
Qed.

Lemma effects_saved filename data s :
  effects s (saved filename data s) [filename].
Proof.
  split; [done|]. split; [|split].
  - exists [LSaved filename]. split; [done|]. split; [done|].
    intros n Hn%list_elem_of_singleton. done.
  - rewrite list_to_set_singleton_L, (comm_L (∪)). apply dom_insert_L.
  - intros f Hf. cbn. apply lookup_insert_ne.
    intros <-. apply Hf, list_elem_of_singleton. done.
Qed.

Lemma indexed_loop_effects e duration framerate dir all_frames ins :
  forall s,
    exists names,
      effects s (indexed_loop e duration framerate dir all_frames ins s).2
              names.
Proof.
  induction ins as [ins IH] using stimuli_ind. intros s.
  rewrite indexed_loop_eq. cbn zeta.
  destruct (_ && _); [|by exists []; apply effects_printed].
  destruct (all_frames !! _) as [n|]; [|by exists []; apply effects_same].
  destruct (viu e _); [|by exists []; apply effects_same].
  set (s1 := printed _ s).
  assert (H1 : effects s s1 []) by by apply effects_printed.
  destruct (read_key ins) as [| |ev rest] eqn:Hk; [by exists []..|].
  apply read_key_shorter in Hk.
  assert (Hnav : forall i, exists names,
    effects s (indexed_loop e duration framerate dir all_frames rest
                 (set_current_frame i s1)).2 names).
  { intros i. destruct (IH rest Hk (set_current_frame i s1)) as [names Hn].
    exists names. exact (effects_trans s s1 _ [] names H1 Hn). }
  destruct ev; try apply Hnav.
  - by exists [].
  - rewrite save_frame_eq. destruct (_ ≫= _) as [data|]; [|by exists []].
    set (fn := frame_filename _).
    destruct (IH rest Hk (saved fn data s1)) as [names Hn].
    exists (fn :: names). apply (effects_trans s s1 _ [] (fn :: names) H1).
    exact (effects_trans _ _ _ [fn] names (effects_saved fn data s1) Hn).
Qed.

Lemma seeked_loop_effects e duration frame_duration ins :
  forall s,
    exists names,
      effects s (seeked_loop e duration frame_duration ins s).2 names.
Proof.
  induction ins as [ins IH] using stimuli_ind. intros s.
  rewrite seeked_loop_eq. cbn zeta.
  destruct (ffmpeg_seek e _) as [st frame|];
    [|by exists []; apply effects_same].
  destruct (st =? 0); [|by exists []; apply effects_printed].
  destruct (viu e _); [|by exists []; apply effects_same].
  set (s1 := printed _ s).
  assert (H1 : effects s s1 []) by by apply effects_printed.
  destruct (read_key ins) as [| |ev rest] eqn:Hk; [by exists []..|].
  apply read_key_shorter in Hk.
  assert (Hnav : forall t, exists names,
    effects s (seeked_loop e duration frame_duration rest
                 (set_current_time t s1)).2 names).
  { intros t. destruct (IH rest Hk (set_current_time t s1)) as [names Hn].
    exists names. exact (effects_trans s s1 _ [] names H1 Hn). }
  destruct ev; try apply Hnav.
  - by exists [].
  - rewrite save_frame_eq.
    set (fn := frame_filename _).
    destruct (IH rest Hk (saved fn frame s1)) as [names Hn].
    exists (fn :: names). apply (effects_trans s s1 _ [] (fn :: names) H1).
    exact (effects_trans _ _ _ [fn] names (effects_saved fn frame s1) Hn).
Qed.

Lemma indexed_session_not_started_eq fos e duration s :
  ffmpeg_bulk e = NotStarted ->
  indexed_session fos e duration s =
  let s1 := set_tmpdirs (<[fresh (dom (tmpdirs s)) := ∅]> (tmpdirs s))
              (printed LExtracting s) in
  match temp_dir s with
  | None => (Raise NameError, s1)
  | Some dir =>
      match tmpdirs s1 !! dir with
      | Some _ => (Raise OSError, set_tmpdirs (delete dir (tmpdirs s1)) s1)
      | None => (Raise OSError, s1)
      end
  end.
Proof.
  intros Hp. unfold indexed_session, try_finally. rewrite bind_eq.
  cbn [print modify]. rewrite bind_eq, extract_all_frames_eq, Hp.
  cbv beta iota zeta. rewrite bind_eq. cbn [gets].
  change (temp_dir (set_tmpdirs _ _)) with (temp_dir s).
  destruct (temp_dir s) as [dir|]; [|done].
  unfold rmtree. by destruct (_ !! dir).
Qed.

Lemma indexed_session_effects fos e duration s :
  exists names, effects s (indexed_session fos e duration s).2 names.
Proof.
  destruct (ffmpeg_bulk e) as [st out|] eqn:Hp.
  - destruct (indexed_session_exited fos e duration s st out Hp)
      as (framerate & s2 & Hf & Hs2 & ->).
    set (all_frames := merge_sort Z.le _). set (d := fresh _) in *.
    assert (H2 : effects s s2 []).
    { destruct Hs2 as [->| ->].
      - by apply (effects_trans s (printed LExtracting s) _ [] []);
          [apply effects_printed|apply effects_same].
      - apply (effects_trans s (printed LExtracting s) _ [] []);
          [by apply effects_printed|].
        by apply (effects_trans _
                    (set_temp_dir (Some d)
                       (set_tmpdirs
                          (<[d:=list_to_map (ffmpeg_written e)]> (tmpdirs s))
                          (printed LExtracting s))) _ [] []);
          [apply effects_same|apply effects_printed]. }
    destruct (indexed_loop_effects e duration framerate d all_frames
                (keys e) s2) as [names Hn].
    exists names. apply (effects_trans s s2 _ [] names H2).
    destruct (indexed_loop _ _ _ _ _ _ _) as [[| |] s3]; cbn [snd] in *;
      try done.
    all: by apply (effects_trans s2 s3 _ names []);
           [|apply effects_same].
  - rewrite (indexed_session_not_started_eq fos e duration s Hp). cbn zeta.
    exists []. apply (effects_trans s (printed LExtracting s) _ [] []);
      [by apply effects_printed|].
    destruct (temp_dir s) as [dir|]; [|by apply effects_same].
    destruct (_ !! dir); by apply effects_same.
Qed.

Lemma seeked_session_effects fos e duration s :
  exists names, effects s (seeked_session fos e duration s).2 names.
Proof.
  unfold seeked_session. rewrite bind_eq. cbn [modify]. rewrite bind_eq.
  set (s0 := set_current_time 0 s).
  destruct (get_framerate_returns fos e s0) as (framerate & s1 & -> & Hs1).
  assert (H1 : effects s s1 []).
  { destruct Hs1 as [->| ->]; [by apply effects_same|].
    by apply (effects_trans s s0 _ [] []);
      [apply effects_same|apply effects_printed]. }
  rewrite bind_eq. unfold lift, divide.
  destruct (Qeq_bool framerate 0); [by exists []|].
  destruct (seeked_loop_effects e duration (1 / framerate) (keys e) s1)
    as [names Hn].
  exists names. exact (effects_trans s s1 _ [] names H1 Hn).
Qed.

Lemma main_eq fos e s :
  main fos e s =
  if (length (argv e) <? 2)%nat then
    (Raise (SystemExit 1), printed (LUsage (hd "" (argv e))) s)
  else
    match get_duration fos e (printed LControls s) with
    | (Ret duration, s1) =>
        match match select_strategy duration with
              | Indexed => indexed_session fos e duration
              | Seeked => seeked_session fos e duration
              end s1 with
        | (Ret b, s2) => (Ret b, reported s2)
        | other => other
        end
    | (Raise x, s1) => (Raise x, s1)
    | (Block, s1) => (Block, s1)
    end.
Proof.
  unfold main. destruct (_ <? _)%nat; [done|].
  rewrite bind_eq. cbn [print modify]. fold (printed LControls s).
  rewrite bind_eq.
  destruct (get_duration _ _ _) as [[duration|x|] s1]; [|done..].
  rewrite bind_eq.
  destruct (match select_strategy duration with
            | Indexed => indexed_session fos e duration
            | Seeked => seeked_session fos e duration
            end s1) as [[b|x|] s2]; [|done..].
  unfold report, reported. rewrite !bind_eq.
  cbn [gets print modify mret M_ret stdout set_stdout]. rewrite bind_eq.
  cbn [print modify mret M_ret stdout set_stdout]. unfold set_stdout at 1.
  cbn [current_frame current_time saved_frames temp_dir cwd tmpdirs stdout
       set_stdout].
  by rewrite <- app_assoc.
Qed.

Lemma main_effects fos e s r s' :
  main fos e s = (r, s') ->
  exists names s1,
    effects s s1 names
    /\ s' = match r with Ret _ => reported s1 | _ => s1 end.
Proof.
  rewrite main_eq. destruct (_ <? _)%nat.
  { intros [= <- <-]. exists [], (printed (LUsage (hd "" (argv e))) s).
    split; [by apply effects_printed|done]. }
  assert (H0 : effects s (printed LControls s) [])
    by by apply effects_printed.
  rewrite get_duration_eq.
  assert (Hfail :
    (Raise (SystemExit 1), printed LErrDuration (printed LControls s))
    = (r, s') ->
    exists names s1,
      effects s s1 names
      /\ s' = match r with Ret _ => reported s1 | _ => s1 end).
  { intros [= <- <-].
    exists [], (printed LErrDuration (printed LControls s)).
    split; [|done].
    by apply (effects_trans s (printed LControls s) _ [] []);
      [|apply effects_printed]. }
  destruct (ffprobe_duration e) as [st out|]; [|exact Hfail].
  destruct (st =? 0); [|exact Hfail].
  destruct (fos _) as [duration|]; [|exact Hfail].
  assert (exists names,
    effects (printed LControls s)
      (match select_strategy duration with
       | Indexed => indexed_session fos e duration
       | Seeked => seeked_session fos e duration
       end (printed LControls s)).2 names) as [names Hn].
  { destruct (select_strategy duration);
      [apply indexed_session_effects|apply seeked_session_effects]. }
  destruct (match select_strategy duration with
            | Indexed => indexed_session fos e duration
            | Seeked => seeked_session fos e duration
            end (printed LControls s)) as [[b|x|] s2]; cbn [snd] in Hn.
  all: intros [= <- <-]; exists names, s2; split;
    [exact (effects_trans s _ s2 [] names H0 Hn)|done].
Qed.

Lemma read_key_fails ins x : read_key ins = ReadFails x -> Fail x ∈ ins.
Proof.
  destruct ins as [|[ch|y] ins1]; [done| |].
  - cbn [read_key].
    destruct (Ascii.eqb ch "q"); [done|].
    destruct (Ascii.eqb ch "s"); [done|].
    destruct (Ascii.eqb ch "."); [done|].
    destruct (Ascii.eqb ch ","); [done|].
    destruct (Ascii.eqb ch esc); [|done].
    destruct ins1 as [|[n1|x1] [|[n2|x2] ins3]]; try done.
    all: intros [= ->]; by repeat constructor.
  - intros [= ->]. by constructor.
Qed.

Lemma read_key_rest ins ev rest :
  read_key ins = Event ev rest -> forall k, k ∈ rest -> k ∈ ins.
Proof.
  destruct ins as [|[ch|y] ins1]; [done| |done].
  cbn [read_key].
  assert (Hall : forall ev', Event ev' ins1 = Event ev rest ->
                 forall k, k ∈ rest -> k ∈ Key ch :: ins1).
  { intros ev' [= _ ->] k Hk. by constructor. }
  destruct (Ascii.eqb ch "q"); [apply Hall|].
  destruct (Ascii.eqb ch "s"); [apply Hall|].
  destruct (Ascii.eqb ch "."); [apply Hall|].
  destruct (Ascii.eqb ch ","); [apply Hall|].
  destruct (Ascii.eqb ch esc); [|apply Hall].
  destruct ins1 as [|[n1|x1] [|[n2|x2] ins3]]; try done.
  intros [= _ ->] k Hk. by repeat constructor.
Qed.

Lemma indexed_loop_runs e duration framerate dir all_frames ins :
  forall s,
    0 <= current_frame s <= Z.of_nat (length all_frames) - 1 ->
    (forall f, viu e f <> NotStarted) ->
    (forall x, Fail x ∉ ins) ->
    (forall n, n ∈ all_frames -> is_Some (tmpdirs s !! dir ≫= (.!! n))) ->
    (indexed_loop e duration framerate dir all_frames ins s).1
    = if quits (Spec.decode ins) then Ret ByQuit else Block.
Proof.
  induction ins as [ins IH] using stimuli_ind. intros s Hb Hviu Hfail Hfiles.
  rewrite indexed_loop_eq, decode_read_key. cbn zeta.
  replace (_ && _) with true by (symmetry; apply andb_true_iff; lia).
  destruct (lookup_lt_is_Some_2 all_frames (Z.to_nat (current_frame s)))
    as [n Hn]; [lia|]. rewrite Hn.
  pose proof (Hviu (Path dir n)). destruct (viu e _); [|done].
  destruct (read_key ins) as [| |ev rest] eqn:Hk; [done| |].
  { by destruct (Hfail x (read_key_fails _ _ Hk)). }
  assert (Hrest : forall x, Fail x ∉ rest).
  { intros x Hin. apply (Hfail x). by eapply read_key_rest. }
  apply read_key_shorter in Hk.
  assert (Hnav : forall i,
    0 <= i <= Z.of_nat (length all_frames) - 1 ->
    (indexed_loop e duration framerate dir all_frames rest
       (set_current_frame i
          (printed (LCurrentFrame (current_frame s + 1)
                                  (Z.of_nat (length all_frames))) s))).1
    = if quits (Spec.decode rest) then Ret ByQuit else Block).
  { intros i Hi. by apply (IH rest Hk). }
  destruct ev; cbn [quits];
    try (apply Hnav; by apply indexed_nav_bounds).
  - done.
  - rewrite save_frame_eq. cbn [printed tmpdirs set_stdout].
    destruct (Hfiles n) as [data ->].
    { apply list_elem_of_lookup. eauto. }
    by apply (IH rest Hk).
Qed.

Lemma seeked_loop_runs e duration frame_duration ins :
  forall s,
    (forall t, exists frame, ffmpeg_seek e t = Exited 0 frame) ->
    (forall f, viu e f <> NotStarted) ->
    (forall x, Fail x ∉ ins) ->
    (seeked_loop e duration frame_duration ins s).1
    = if quits (Spec.decode ins) then Ret ByQuit else Block.
Proof.
  induction ins as [ins IH] using stimuli_ind. intros s Hseek Hviu Hfail.
  rewrite seeked_loop_eq, decode_read_key. cbn zeta.
  destruct (Hseek (current_time s)) as [frame ->]. cbn [Z.eqb].
  pose proof (Hviu (Bytes frame)). destruct (viu e _); [|done].
  destruct (read_key ins) as [| |ev rest] eqn:Hk; [done| |].
  { by destruct (Hfail x (read_key_fails _ _ Hk)). }
  assert (Hrest : forall x, Fail x ∉ rest).
  { intros x Hin. apply (Hfail x). by eapply read_key_rest. }
  apply read_key_shorter in Hk.
  destruct ev; cbn [quits]; try (by apply (IH rest Hk)). done.
Qed.


(** * Further properties of the script *)





(** X3. Keys typed after the end are not read.  A run of either loop that
    has ended (by [q], by leaving the range, or by an error) on some keys
    ends in the same way and in the same state when more keys follow
    them. *)
Theorem keys_after_the_end_are_not_read :
  (forall e duration framerate dir all_frames ins more s,
     (indexed_loop e duration framerate dir all_frames ins s).1 <> Block ->
     indexed_loop e duration framerate dir all_frames (ins ++ more) s
     = indexed_loop e duration framerate dir all_frames ins s)
  /\ (forall e duration frame_duration ins more s,
        (seeked_loop e duration frame_duration ins s).1 <> Block ->
        seeked_loop e duration frame_duration (ins ++ more) s
        = seeked_loop e duration frame_duration ins s).
Proof.
  split.
  - intros. by apply indexed_loop_app.
  - intros. by apply seeked_loop_app.
Qed.

Lemma keys_after_the_end_are_not_read_witness :
  seeked_loop (film []) 600 (1 # 30) ([Key "."; Key "q"] ++ [Key "s"])
    (initial ∅ ∅)
  = seeked_loop (film []) 600 (1 # 30) [Key "."; Key "q"] (initial ∅ ∅).
Proof.
  destruct keys_after_the_end_are_not_read as [_ H].
  apply H. vm_compute. discriminate.
Defined.

(** X4. Whatever the command line, the tools and the keys do, and however
    the run ends, the script changes the working directory only by the
    files it records as saved: afterwards the directory holds the files it
    held before and the names of [saved_frames], every name of
    [saved_frames] is a file, and every other file has the content it
    had. *)
Theorem main_writes_only_what_it_saves fos e files dirs :
  let s' := (main fos e (initial files dirs)).2 in
  dom (cwd s') = dom files ∪ list_to_set (saved_frames s')
  /\ (forall f, f ∈ saved_frames s' -> is_Some (cwd s' !! f))
  /\ (forall f, f ∉ saved_frames s' -> cwd s' !! f = files !! f).
Proof.
  intros s'.
  destruct (main fos e (initial files dirs)) as [r s''] eqn:Hrun.
  subst s'. cbn [snd].
  destruct (main_effects _ _ _ _ _ Hrun)
    as (names & s1 & (Hs & _ & Hd & Hf) & ->).
  assert (Hsaved : saved_frames (match r with
                                 | Ret _ => reported s1
                                 | _ => s1
                                 end) = names) by by destruct r.
  assert (Hcwd : cwd (match r with Ret _ => reported s1 | _ => s1 end)
                 = cwd s1) by by destruct r.
  rewrite Hsaved, Hcwd. split; [done|]. split; [|done].
  intros f Hin. apply elem_of_dom. rewrite Hd.
  apply elem_of_union_r, elem_of_list_to_set, Hin.
Qed.

(** X5. The final report (lines 175-177) is printed exactly when the
    script reaches its end: a run prints a "Saved n frames:" line if and
    only if it returns, whether by quitting or by leaving the range; a run
    that exits, raises or waits for a key prints none, whatever was saved.
    When the report is printed it is the last thing printed, its count is
    the length of [saved_frames], its names are [saved_frames], and the
    "Saved <name>" lines before it name the same files in the same
    order. *)
Theorem report_printed_iff_returned fos e files dirs :
  let run := main fos e (initial files dirs) in
  ((exists b, run.1 = Ret b) <-> (exists n, LSummary n ∈ stdout run.2))
  /\ (forall b, run.1 = Ret b ->
      exists out,
        stdout run.2 = out ++ LSummary (length (saved_frames run.2))
                         :: map LName (saved_frames run.2)
        /\ (forall n, LSummary n ∉ out)
        /\ saved_log out = saved_frames run.2).
Proof.
  intros run.
  destruct (main fos e (initial files dirs)) as [r s'] eqn:Hrun.
  subst run. cbn [fst snd].
  destruct (main_effects _ _ _ _ _ Hrun)
    as (names & s1 & (Hs & (out & Ho & Hl & Hn) & _) & ->).
  cbn in Hs, Ho. split.
  - split.
    + intros [b ->]. exists (length (saved_frames s1)). cbn.
      apply elem_of_app. right. apply list_elem_of_here.
    + intros [n Hin]. destruct r as [b|x|]; [eauto|..];
        rewrite Ho in Hin; by destruct (Hn n).
  - intros b ->. exists out. cbn. by rewrite Ho, Hs.
Qed.

Lemma report_printed_iff_returned_witness :
  let run := main Decimal.parse (film [Key "s"; Key "q"]) (initial ∅ ∅) in
  exists out,
    stdout run.2 = out ++ LSummary (length (saved_frames run.2))
                     :: map LName (saved_frames run.2)
    /\ (forall n, LSummary n ∉ out)
    /\ saved_log out = saved_frames run.2.
Proof.
  intros run.
  destruct (report_printed_iff_returned Decimal.parse
              (film [Key "s"; Key "q"]) ∅ ∅) as [_ H].
  apply (H ByQuit). vm_compute. reflexivity.
Defined.

(** X6. With a renderer that starts and keys that can be read, a short
    video that gave at least one frame is left only by [q], whatever the
    status of ffmpeg and of the frame rate probe: the indexed session
    returns by quitting if a Quit is among the decoded keys and otherwise
    waits for a key; it never raises and never leaves the range.  With no
    frame it leaves at once by "Frame index out of range". *)
Theorem indexed_session_ends_by_quit_only fos e duration s st out :
  ffmpeg_bulk e = Exited st out ->
  (forall f, viu e f <> NotStarted) ->
  (forall x, Fail x ∉ keys e) ->
  current_frame s = 0 ->
  (indexed_session fos e duration s).1
  = match ffmpeg_written e with
    | [] => Ret ByOutOfRange
    | _ :: _ => if quits (Spec.decode (keys e)) then Ret ByQuit else Block
    end.
Proof.
  intros Hp Hviu Hfail Hs.
  destruct (indexed_session_exited fos e duration s st out Hp)
    as (framerate & s2 & Hf & Hs2 & ->).
  set (files := list_to_map (ffmpeg_written e) : gmap Z string).
  set (all_frames := merge_sort Z.le _). set (d := fresh _) in *.
  assert (Hc2 : current_frame s2 = 0) by by destruct Hs2 as [->| ->].
  assert (Ht2 : tmpdirs s2 !! d = Some files).
  { destruct Hs2 as [->| ->]; cbn; apply lookup_insert_eq. }
  destruct (ffmpeg_written e) as [|[k v] written] eqn:Hw.
  - subst all_frames files. rewrite list_to_map_nil, map_to_list_empty.
    change (merge_sort Z.le ([] : list (Z * string)).*1) with (@nil Z).
    by rewrite out_of_range_at_once.
  - assert (Hlen : (0 < length all_frames)%nat).
    { unfold all_frames.
      rewrite merge_sort_Permutation, length_fmap, length_map_to_list.
      apply Nat.neq_0_lt_0. intros H0%map_size_empty_inv.
      assert (Hk : files !! k = Some v) by apply lookup_insert_eq.
      rewrite H0 in Hk. by rewrite lookup_empty in Hk. }
    pose proof (indexed_loop_runs e duration framerate d all_frames (keys e)
                  s2) as Hrun.
    rewrite Hc2 in Hrun. specialize (Hrun ltac:(lia) Hviu Hfail).
    destruct (indexed_loop _ _ _ _ _ _ _) as [r s3]. cbn [fst] in Hrun.
    assert (Hr : r = if quits (Spec.decode (keys e))
                     then Ret ByQuit else Block).
    { apply Hrun. intros n Hn. rewrite Ht2. cbn.
      unfold all_frames in Hn. rewrite merge_sort_Permutation in Hn.
      apply list_elem_of_fmap in Hn as [[n' v'] [-> Hin]].
      apply elem_of_map_to_list in Hin. eauto. }
    rewrite Hr. by destruct (quits _).
Qed.

Lemma indexed_session_ends_by_quit_only_witness :
  (indexed_session Decimal.parse
     (clip 0 [(0, "a"); (10, "b")] [Key "."; Key "s"; Key "q"]) 60
     (initial ∅ ∅)).1
  = Ret ByQuit.
Proof.
  apply (indexed_session_ends_by_quit_only Decimal.parse
           (clip 0 [(0, "a"); (10, "b")] [Key "."; Key "s"; Key "q"]) 60
           (initial ∅ ∅) 0 "").
  - reflexivity.
  - intros f. discriminate.
  - intros x Hin. cbn in Hin.
    repeat (apply elem_of_cons in Hin as [Hin|Hin]; [discriminate|]).
    by apply elem_of_nil in Hin.
  - reflexivity.
Defined.

(** X7. With working tools, a frame rate other than zero and keys that can
    be read, a long video is left only by [q]: the seeked session returns
    by quitting if a Quit is among the decoded keys and otherwise waits for
    a key. *)
Theorem seeked_session_ends_by_quit_only fos e duration s :
  (forall t, exists frame, ffmpeg_seek e t = Exited 0 frame) ->
  (forall f, viu e f <> NotStarted) ->
  (forall x, Fail x ∉ keys e) ->
  (forall framerate s1,
     get_framerate fos e (set_current_time 0 s) = (Ret framerate, s1) ->
     ~ (framerate == 0)%Q) ->
  (seeked_session fos e duration s).1
  = if quits (Spec.decode (keys e)) then Ret ByQuit else Block.
Proof.
  intros Hseek Hviu Hfail Hrate. unfold seeked_session.
  rewrite bind_eq. cbn [modify]. rewrite bind_eq.
  destruct (get_framerate_returns fos e (set_current_time 0 s))
    as (framerate & s1 & Hf & _).
  specialize (Hrate framerate s1 Hf). rewrite Hf, bind_eq.
  unfold lift, divide.
  destruct (Qeq_bool framerate 0) eqn:E.
  { by apply Qeq_bool_iff in E. }
  by apply seeked_loop_runs.
Qed.

Lemma seeked_session_ends_by_quit_only_witness :
  (seeked_session Decimal.parse (film [Key "."; Key "s"]) 600
     (initial ∅ ∅)).1
  = Block.
Proof.
  apply (seeked_session_ends_by_quit_only Decimal.parse
           (film [Key "."; Key "s"]) 600 (initial ∅ ∅)).
  - intros t. eexists. reflexivity.
  - intros f. discriminate.
  - intros x Hin. cbn in Hin.
    repeat (apply elem_of_cons in Hin as [Hin|Hin]; [discriminate|]).
    by apply elem_of_nil in Hin.
  - intros framerate s1 Hf. vm_compute in Hf.
    injection Hf as <- _. discriminate.
Defined.

(** X8. Zero in the frame rate.  A rate reported as "n/0" makes the
    division raise inside [get_framerate], whose bare [except] answers
    with the message and the default 30.  A rate that is itself zero (for
    instance "0/1") is returned as it is: the seeked branch then raises
    ZeroDivisionError at [1/framerate] (line 148), before any frame is
    read, while the indexed branch only uses it for the jump, which is one
    frame. *)
Theorem zero_frame_rate :
  (forall fos e s out n d a b,
     ffprobe_framerate e = Exited 0 out ->
     Py.strip out = n +:+ String "/" d ->
     Py.contains "/" n = false -> Py.contains "/" d = false ->
     fos n = Some a -> fos d = Some b -> (b == 0)%Q ->
     get_framerate fos e s = (Ret 30%Q, printed LErrFramerate s))
  /\ (forall fos e duration s framerate s1,
        get_framerate fos e (set_current_time 0 s) = (Ret framerate, s1) ->
        (framerate == 0)%Q ->
        seeked_session fos e duration s = (Raise ZeroDivisionError, s1))
  /\ (forall framerate, (framerate == 0)%Q -> frames_to_move framerate = 1).
Proof.
  split; [|split].
  - intros fos e s out n d a b Hp Hfr Hn Hd Ha Hb Hb0.
    rewrite (get_framerate_output fos e s out Hp). cbn zeta. rewrite Hfr.
    case_decide as Hne; [by destruct n|].
    rewrite (split_sep "/" n d Hn), (split_no_sep "/" d Hd).
    rewrite (unpack2_pair fos n d a b Ha Hb).
    by rewrite (proj2 (Qeq_bool_iff b 0) Hb0).
  - intros fos e duration s framerate s1 Hf H0. unfold seeked_session.
    rewrite bind_eq. cbn [modify]. rewrite bind_eq, Hf, bind_eq.
    unfold lift, divide. by rewrite (proj2 (Qeq_bool_iff framerate 0) H0).
  - intros [n d] H0. unfold frames_to_move, Py.int.
    unfold Qeq in H0. cbn in H0. assert (n = 0) as -> by lia. done.
Qed.

Lemma zero_frame_rate_witness :
  let e := mkEnv ["scapper.py"; "film.mp4"] (Exited 0 "600")
                 (Exited 0 ("30/0" +:+ nl)) NotStarted []
                 (fun _ => NotStarted) (fun _ => NotStarted) [] in
  get_framerate Decimal.parse e (initial ∅ ∅)
  = (Ret 30%Q, printed LErrFramerate (initial ∅ ∅))
  /\ frames_to_move (0 # 1) = 1.
Proof.
  intros e. destruct zero_frame_rate as (H1 & _ & H3). split.
  - apply (H1 Decimal.parse e (initial ∅ ∅) ("30/0" +:+ nl) "30" "0"
              30%Q 0%Q); reflexivity.
  - apply H3. reflexivity.
Defined.

(** X9. [get_duration] returns a number exactly when ffprobe exits with
    status 0 and prints something [float] accepts, and then prints nothing;
    in every other case (ffprobe missing, failing, or printing no number)
    it prints its message and exits with status 1, and so does the script,
    after the controls and before touching anything else. *)
Theorem get_duration_or_exit :
  (forall fos e s d,
     get_duration fos e s = (Ret d, s)
     <-> exists out,
           ffprobe_duration e = Exited 0 out /\ fos (Py.strip out) = Some d)
  /\ (forall fos e s,
        (forall out d,
           ffprobe_duration e = Exited 0 out ->
           fos (Py.strip out) <> Some d) ->
        get_duration fos e s
        = (Raise (SystemExit 1), printed LErrDuration s)
        /\ ((2 <= length (argv e))%nat ->
            main fos e s
            = (Raise (SystemExit 1),
               printed LErrDuration (printed LControls s)))).
Proof.
  split.
  - intros fos e s d. rewrite get_duration_eq. split.
    + destruct (ffprobe_duration e) as [st out|]; [|done].
      destruct (Z.eqb_spec st 0) as [->|]; [|done].
      destruct (fos _) as [d'|] eqn:Hd; [|done].
      intros [= ->]. eauto.
    + intros (out & -> & Hd). cbn [Z.eqb]. by rewrite Hd.
  - intros fos e s Hbad.
    assert (Hd : forall s0, get_duration fos e s0
                 = (Raise (SystemExit 1), printed LErrDuration s0)).
    { intros s0. rewrite get_duration_eq.
      destruct (ffprobe_duration e) as [st out|]; [|done].
      destruct (Z.eqb_spec st 0) as [->|]; [|done].
      destruct (fos _) as [d|] eqn:Hd; [|done].
      by destruct (Hbad out d). }
    split; [apply Hd|].
    intros Hargv. rewrite main_eq, Hd.
    destruct (Nat.ltb_spec (length (argv e)) 2); [lia|done].
Qed.

Lemma get_duration_or_exit_witness :
  let e := mkEnv ["scapper.py"; "notes.txt"] (Exited 1 "") NotStarted
                 NotStarted [] (fun _ => NotStarted) (fun _ => NotStarted)
                 [] in
  main Decimal.parse e (initial ∅ ∅)
  = (Raise (SystemExit 1),
     printed LErrDuration (printed LControls (initial ∅ ∅))).
Proof.
  intros e. destruct get_duration_or_exit as [_ H].
  apply (H Decimal.parse e (initial ∅ ∅)).
  - intros out d. discriminate.
  - cbn. lia.
Defined.

(** X10. In the seeked loop a failure of ffmpeg at the current timestamp
    ends the run, whatever keys are waiting: a non-zero status prints
    "Error extracting frame" and exits with status 1; a missing ffmpeg is
    not caught by [get_frame] and surfaces as an OSError, with nothing
    printed. *)
Theorem seek_failure_is_fatal e duration frame_duration ins s :
  (forall st out,
     ffmpeg_seek e (current_time s) = Exited st out -> st <> 0 ->
     seeked_loop e duration frame_duration ins s
     = (Raise (SystemExit 1), printed LErrFrame s))
  /\ (ffmpeg_seek e (current_time s) = NotStarted ->
      seeked_loop e duration frame_duration ins s = (Raise OSError, s)).
Proof.
  split.
  - intros st out Hf Hst. rewrite seeked_loop_eq. cbn zeta. rewrite Hf.
    by destruct (Z.eqb_spec st 0).
  - intros Hf. rewrite seeked_loop_eq. cbn zeta. by rewrite Hf.
Qed.

Lemma seek_failure_is_fatal_witness :
  let e := mkEnv ["scapper.py"; "film.mp4"] (Exited 0 "600")
                 (Exited 0 "30/1") NotStarted []
                 (fun _ => Exited 1 "") (fun _ => Exited 0 "") [] in
  seeked_loop e 600 (1 # 30) [Key "s"; Key "q"] (initial ∅ ∅)
  = (Raise (SystemExit 1), printed LErrFrame (initial ∅ ∅)).
Proof.
  intros e.
  apply (seek_failure_is_fatal e 600 (1 # 30) [Key "s"; Key "q"]
           (initial ∅ ∅)) with (st := 1) (out := "");
    [reflexivity|discriminate].
Defined.

(** X11. The exit status and the output of viu are never looked at.
    [display_frame] returns normally whenever viu could be started, never
    reaches its [sys.exit(1)] (nothing it calls raises
    CalledProcessError), and leaves the state as it is; both loops run
    the same with any other renderer that can be started on the same
    frames. *)
Theorem renderer_status_is_ignored :
  (forall e f s st out,
     viu e f = Exited st out -> display_frame e f s = (Ret tt, s))
  /\ (forall e f s,
        (display_frame e f s).1 <> Raise (SystemExit 1)
        /\ (display_frame e f s).2 = s)
  /\ (forall e v duration framerate dir all_frames ins s,
        (forall f, viu e f = NotStarted <-> v f = NotStarted) ->
        indexed_loop (with_viu v e) duration framerate dir all_frames ins s
        = indexed_loop e duration framerate dir all_frames ins s)
  /\ (forall e v duration frame_duration ins s,
        (forall f, viu e f = NotStarted <-> v f = NotStarted) ->
        seeked_loop (with_viu v e) duration frame_duration ins s
        = seeked_loop e duration frame_duration ins s).
Proof.
  split; [|split; [|split]].
  - intros e f s st out H. by rewrite display_frame_eq, H.
  - intros e f s. rewrite display_frame_eq. by destruct (viu e f).
  - intros e v duration framerate dir all_frames ins s Hv. revert s.
    induction ins as [ins IH] using stimuli_ind. intros s.
    rewrite !indexed_loop_eq. cbn zeta.
    destruct (_ && _); [|done].
    destruct (all_frames !! _) as [n|]; [|done].
    cbn [viu with_viu]. specialize (Hv (Path dir n)).
    destruct (viu e _), (v _); try done;
      try (by destruct Hv as [H1 H2];
           first [specialize (H1 eq_refl)|specialize (H2 eq_refl)]).
    destruct (read_key ins) as [| |ev rest] eqn:Hk; [done..|].
    apply read_key_shorter in Hk.
    destruct ev; try apply (IH rest Hk); [done|].
    destruct (save_frame _ _ _) as [[[]| |] s2]; [|done..].
    apply (IH rest Hk).
  - intros e v duration frame_duration ins s Hv. revert s.
    induction ins as [ins IH] using stimuli_ind. intros s.
    rewrite !seeked_loop_eq. cbn zeta.
    change (ffmpeg_seek (with_viu v e)) with (ffmpeg_seek e).
    destruct (ffmpeg_seek e _) as [st frame|]; [|done].
    destruct (st =? 0); [|done].
    cbn [viu with_viu]. specialize (Hv (Bytes frame)).
    destruct (viu e _), (v _); try done;
      try (by destruct Hv as [H1 H2];
           first [specialize (H1 eq_refl)|specialize (H2 eq_refl)]).
    destruct (read_key ins) as [| |ev rest] eqn:Hk; [done..|].
    apply read_key_shorter in Hk.
    destruct ev; try apply (IH rest Hk). done.
Qed.

Lemma renderer_status_is_ignored_witness :
  seeked_loop (with_viu (fun _ => Exited 1 "no terminal")
                 (film [])) 600 (1001 # 30000) [Key "s"; Key "q"]
    (initial ∅ ∅)
  = seeked_loop (film []) 600 (1001 # 30000) [Key "s"; Key "q"]
      (initial ∅ ∅).
Proof.
  destruct renderer_status_is_ignored as (_ & _ & _ & H).
  apply H. intros f. split; discriminate.
Defined.

(** X12. The timestamps the indexed branch gives to frames (line 125),
    computed exactly: with a positive duration and at least one frame,
    frame 0 is at 0, every frame of the range is at a timestamp of
    [0, duration), and later frames have strictly later timestamps. *)
Theorem indexed_timestamp_increases duration total :
  (0 < duration)%Q -> 0 < total ->
  (indexed_timestamp duration total 0 == 0)%Q
  /\ (forall i, 0 <= i < total ->
        (0 <= indexed_timestamp duration total i < duration)%Q)
  /\ (forall i j, i < j ->
        (indexed_timestamp duration total i
         < indexed_timestamp duration total j)%Q).
Proof.
  intros Hd Ht. unfold indexed_timestamp.
  assert (Htq : (0 < inject_Z total)%Q).
  { change 0%Q with (inject_Z 0). by rewrite <- Zlt_Qlt. }
  assert (Hmono : forall i j, i < j ->
            (inject_Z i / inject_Z total < inject_Z j / inject_Z total)%Q).
  { intros i j Hij. apply Qmult_lt_r; [by apply Qinv_lt_0_compat|].
    by rewrite <- Zlt_Qlt. }
  assert (H1 : (inject_Z total / inject_Z total == 1)%Q).
  { apply Qmult_inv_r. intros H. rewrite H in Htq. by apply Qlt_irrefl in Htq. }
  assert (H0 : (inject_Z 0 / inject_Z total == 0)%Q) by (unfold Qdiv; ring).
  split; [|split].
  - rewrite H0. ring.
  - intros i [Hi1 Hi2]. split.
    + apply Qmult_le_0_compat; [|by apply Qlt_le_weak].
      rewrite <- H0. apply Z.le_lteq in Hi1 as [Hlt| <-];
        [apply Qlt_le_weak, Hmono, Hlt|apply Qle_refl].
    + rewrite <- (Qmult_1_l duration) at 2.
      apply Qmult_lt_r; [done|]. rewrite <- H1. by apply Hmono.
  - intros i j Hij. apply Qmult_lt_r; [done|]. by apply Hmono.
Qed.

Lemma indexed_timestamp_increases_witness :
  (0 <= indexed_timestamp 60 1800 1799 < 60)%Q
  /\ (indexed_timestamp 60 1800 10 < indexed_timestamp 60 1800 11)%Q.
Proof.
  destruct (indexed_timestamp_increases 60 1800) as (_ & Hb & Hm);
    [reflexivity|lia|].
  split; [apply Hb|apply Hm]; lia.
Defined.

(** X13. In the indexed branch opposite keys undo each other away from
    the ends: [.] then [,] returns to the frame unless it was the last
    one, [,] then [.] unless it was the first, and the arrows likewise
    when the jump fits in the range; at the last frame [.] and the right
    arrow do nothing. *)
Theorem indexed_steps_undo framerate total current :
  0 <= current <= total - 1 ->
  (current < total - 1 ->
     indexed_nav framerate total StepBack
       (indexed_nav framerate total StepForward current) = current)
  /\ (0 < current ->
        indexed_nav framerate total StepForward
          (indexed_nav framerate total StepBack current) = current)
  /\ (current + frames_to_move framerate <= total - 1 ->
        indexed_nav framerate total JumpBack
          (indexed_nav framerate total JumpForward current) = current)
  /\ (0 <= current - frames_to_move framerate ->
        indexed_nav framerate total JumpForward
          (indexed_nav framerate total JumpBack current) = current)
  /\ indexed_nav framerate total StepForward (total - 1) = total - 1
  /\ indexed_nav framerate total JumpForward (total - 1) = total - 1.
Proof.
  intros Hb. pose proof (frames_to_move_pos framerate).
  cbn [indexed_nav].
  unfold indexed_forward, indexed_back, indexed_right, indexed_left.
  rewrite !maxZ_max, !minZ_min.
  repeat split; intros;
    repeat match goal with
           | |- context [if ?a <? ?b then _ else _] =>
               destruct (Z.ltb_spec a b)
           end; rewrite ?maxZ_max, ?minZ_min; lia.
Qed.

Lemma indexed_steps_undo_witness :
  indexed_nav 30 900 JumpBack (indexed_nav 30 900 JumpForward 100) = 100.
Proof.
  destruct (indexed_steps_undo 30 900 100) as (_ & _ & H & _); [lia|].
  apply H. vm_compute. discriminate.
Defined.

(** X14. A short video with ffmpeg missing: [subprocess.run] raises inside
    [extract_all_frames] after [mkdtemp], so the global [temp_dir] is
    never assigned and the [finally] of line 143 raises NameError.  The
    script ends with that NameError, and the directory just made is
    left behind, empty. *)
Theorem ffmpeg_missing_leaves_directory fos e files dirs out d :
  (2 <= length (argv e))%nat ->
  ffprobe_duration e = Exited 0 out ->
  fos (Py.strip out) = Some d ->
  (d <= 120)%Q ->
  ffmpeg_bulk e = NotStarted ->
  main fos e (initial files dirs)
  = (Raise NameError,
     set_tmpdirs (<[fresh (dom dirs) := ∅]> dirs)
       (printed LExtracting (printed LControls (initial files dirs)))).
Proof.
  intros Hargv Hp Hd Hle Hb. rewrite main_eq.
  destruct (Nat.ltb_spec (length (argv e)) 2); [lia|].
  rewrite get_duration_eq, Hp. cbn [Z.eqb]. rewrite Hd.
  unfold select_strategy. rewrite (proj2 (Qleb_le d 120) Hle).
  by rewrite (indexed_session_not_started_eq fos e d _ Hb).
Qed.

Lemma ffmpeg_missing_leaves_directory_witness :
  let e := mkEnv ["scapper.py"; "clip.mp4"] (Exited 0 ("60.000000" +:+ nl))
                 (Exited 0 "30/1") NotStarted []
                 (fun _ => NotStarted) (fun _ => Exited 0 "") [Key "q"] in
  let run := main Decimal.parse e (initial ∅ ∅) in
  run.1 = Raise NameError /\ size (tmpdirs run.2) = 1%nat.
Proof.
  intros e run. subst run.
  rewrite (ffmpeg_missing_leaves_directory Decimal.parse e ∅ ∅
             ("60.000000" +:+ nl) (60000000 # 1000000)%Q);
    [split; reflexivity|cbn; lia|reflexivity|reflexivity|discriminate
    |reflexivity].
Defined.

(** X15. Keys outside the table change nothing.  In both loops a character
    other than [q], [s], [.], [,] and ESC, and an escape sequence other
    than ESC [ C and ESC [ D (three characters are always consumed), only
    make the loop display the frame and print the position again: the run
    continues from the same position, with the same saves and files. *)
Theorem ignored_keys_change_nothing :
  (forall e duration framerate dir all_frames ins s,
     0 <= current_frame s <= Z.of_nat (length all_frames) - 1 ->
     (forall f, viu e f <> NotStarted) ->
     let s1 := printed (LCurrentFrame (current_frame s + 1)
                                      (Z.of_nat (length all_frames))) s in
     (forall ch,
        ch <> "q"%char -> ch <> "s"%char -> ch <> "."%char ->
        ch <> ","%char -> ch <> esc ->
        indexed_loop e duration framerate dir all_frames (Key ch :: ins) s
        = indexed_loop e duration framerate dir all_frames ins s1)
     /\ (forall a b,
           ~ (a = "["%char /\ (b = "C"%char \/ b = "D"%char)) ->
           indexed_loop e duration framerate dir all_frames
             (Key esc :: Key a :: Key b :: ins) s
           = indexed_loop e duration framerate dir all_frames ins s1))
  /\ (forall e duration frame_duration ins s frame,
        ffmpeg_seek e (current_time s) = Exited 0 frame ->
        (forall f, viu e f <> NotStarted) ->
        let s1 := printed (LCurrentTime (current_time s)) s in
        (forall ch,
           ch <> "q"%char -> ch <> "s"%char -> ch <> "."%char ->
           ch <> ","%char -> ch <> esc ->
           seeked_loop e duration frame_duration (Key ch :: ins) s
           = seeked_loop e duration frame_duration ins s1)
        /\ (forall a b,
              ~ (a = "["%char /\ (b = "C"%char \/ b = "D"%char)) ->
              seeked_loop e duration frame_duration
                (Key esc :: Key a :: Key b :: ins) s
              = seeked_loop e duration frame_duration ins s1)).
Proof.
  assert (Hsingle : forall ch ins,
    ch <> "q"%char -> ch <> "s"%char -> ch <> "."%char ->
    ch <> ","%char -> ch <> esc ->
    read_key (Key ch :: ins) = Event Ignored ins).
  { intros ch ins Hq Hs Hd Hc He. cbn [read_key].
    by rewrite !(proj2 (Ascii.eqb_neq _ _)). }
  assert (Hesc : forall a b ins,
    ~ (a = "["%char /\ (b = "C"%char \/ b = "D"%char)) ->
    read_key (Key esc :: Key a :: Key b :: ins) = Event Ignored ins).
  { intros a b ins Hab. cbn [read_key].
    change (Ascii.eqb esc "q") with false. cbv iota.
    change (Ascii.eqb esc esc) with true. cbv iota.
    destruct (Ascii.eqb_spec a "[") as [->|]; [|done].
    destruct (Ascii.eqb_spec b "C") as [->|]; [by destruct Hab; auto|].
    destruct (Ascii.eqb_spec b "D") as [->|]; [by destruct Hab; auto|].
    done. }
  split.
  - intros e duration framerate dir all_frames ins s Hb Hviu s1. split.
    + intros ch Hq Hs Hd Hc He.
      rewrite (indexed_loop_key e duration framerate dir all_frames _ s
                 Ignored ins Hb Hviu (Hsingle ch ins Hq Hs Hd Hc He));
        [|done..].
      cbn [indexed_nav]. change (current_frame s) with (current_frame s1).
      by rewrite set_current_frame_id.
    + intros a b Hab.
      rewrite (indexed_loop_key e duration framerate dir all_frames _ s
                 Ignored ins Hb Hviu (Hesc a b ins Hab)); [|done..].
      cbn [indexed_nav]. change (current_frame s) with (current_frame s1).
      by rewrite set_current_frame_id.
  - intros e duration frame_duration ins s frame Hf Hviu s1. split.
    + intros ch Hq Hs Hd Hc He.
      rewrite (seeked_loop_key e duration frame_duration _ s Ignored ins
                 frame Hf Hviu (Hsingle ch ins Hq Hs Hd Hc He)); [|done..].
      cbn [seeked_nav]. change (current_time s) with (current_time s1).
      by rewrite set_current_time_id.
    + intros a b Hab.
      rewrite (seeked_loop_key e duration frame_duration _ s Ignored ins
                 frame Hf Hviu (Hesc a b ins Hab)); [|done..].
      cbn [seeked_nav]. change (current_time s) with (current_time s1).
      by rewrite set_current_time_id.
Qed.

Lemma ignored_keys_change_nothing_witness :
  let s := initial ∅ ∅ in
  seeked_loop (film []) 600 (1001 # 30000)
    [Key esc; Key "["; Key "A"; Key "q"] s
  = seeked_loop (film []) 600 (1001 # 30000) [Key "q"]
      (printed (LCurrentTime (current_time s)) s).
Proof.
  intros s. destruct ignored_keys_change_nothing as [_ H].
  destruct (H (film []) 600%Q (1001 # 30000)%Q [Key "q"] s
              "image at 0.000")
    as [_ Hesc]; [reflexivity|intros f; discriminate|].
  apply Hesc. intros [_ [Hb|Hb]]; discriminate.
Defined.

(** X16. In the seeked loop [s] writes the very bytes ffmpeg gave for the
    frame on display to "frame_<t>.png", [t] the current timestamp to
    three decimals, and the loop continues at the same timestamp. *)
Theorem seeked_save_keeps_the_decoded_frame
    e duration frame_duration ins s frame :
  ffmpeg_seek e (current_time s) = Exited 0 frame ->
  viu e (Bytes frame) <> NotStarted ->
  seeked_loop e duration frame_duration (Key "s" :: ins) s
  = seeked_loop e duration frame_duration ins
      (saved (frame_filename (current_time s)) frame
         (printed (LCurrentTime (current_time s)) s)).
Proof.
  intros Hf Hviu. rewrite seeked_loop_eq. cbn zeta. rewrite Hf. cbn [Z.eqb].
  destruct (viu e _); [|done].
  cbn [read_key]. change (Ascii.eqb "s" "q") with false.
  change (Ascii.eqb "s" "s") with true. cbv iota.
  by rewrite save_frame_eq.
Qed.

Lemma seeked_save_keeps_the_decoded_frame_witness :
  let s := initial ∅ ∅ in
  seeked_loop (film []) 600 (1001 # 30000) [Key "s"; Key "q"] s
  = seeked_loop (film []) 600 (1001 # 30000) [Key "q"]
      (saved "frame_0.000.png" "image at 0.000"
         (printed (LCurrentTime 0) s)).
Proof.
  intros s.
  apply (seeked_save_keeps_the_decoded_frame (film []) 600 (1001 # 30000)
           [Key "q"] s "image at 0.000"); [reflexivity|discriminate].
Defined.



(** X18. Without a video on the command line (lines 12-15) the script
    prints the usage line with its own name and exits with status 1; it
    prints nothing else, and the outcome depends on nothing but the
    command line: no tool is run and no key is read. *)
Theorem usage_exit_runs_nothing fos fos' e e' s :
  (length (argv e) < 2)%nat ->
  main fos e s = (Raise (SystemExit 1), printed (LUsage (hd "" (argv e))) s)
  /\ (argv e' = argv e -> main fos' e' s = main fos e s).
Proof.
  intros Hargv. rewrite !main_eq.
  destruct (Nat.ltb_spec (length (argv e)) 2) as [_|]; [|lia].
  split; [done|]. intros ->.
  by destruct (Nat.ltb_spec (length (argv e)) 2) as [_|]; [|lia].
Qed.

Lemma usage_exit_runs_nothing_witness :
  main Decimal.parse
    (mkEnv ["scapper.py"] NotStarted NotStarted NotStarted []
           (fun _ => NotStarted) (fun _ => NotStarted) [])
    (initial ∅ ∅)
  = (Raise (SystemExit 1), printed (LUsage "scapper.py") (initial ∅ ∅)).
Proof.
  apply (usage_exit_runs_nothing Decimal.parse Decimal.parse
           (mkEnv ["scapper.py"] NotStarted NotStarted NotStarted []
                  (fun _ => NotStarted) (fun _ => NotStarted) [])
           (film [Key "q"]) (initial ∅ ∅)).
  cbn. lia.
Defined.
